(** * job-autofill-utils: a shallow embedding of the browser helpers

    The repository is one drop-in browser script kept in several
    revisions.  The development follows the latest revision (the one with
    [getCurrentPills]); the two revisions of utils.js are embedded in the
    modules [UtilsJs] and [Legacy] where they differ from it.  The
    type-select flow of the remaining revision, which reads a variable
    that is never declared, is embedded in the module [Part000].

    Strings are sequences of code units below 256 (Rocq's [string]); the
    text of console lines is kept as the bytes of the source.  The page
    is a forest of elements; a script run is a function from a world
    (document, clock, trace of what the script did) to a completion and a
    new world.  The host, which is the page in its browser, answers
    every focus, click, event, pause and assignment to [value], and says
    what selectors mean that the script does not write itself; it is a
    parameter of every run. *)

From Stdlib Require Import String Ascii List ZArith Bool Lia PeanoNat.
Import ListNotations.
Open Scope string_scope.

(* ===================================================================== *)
(** ** JavaScript strings: [trim], [toLowerCase], [includes]             *)
(* ===================================================================== *)

Module JsString.

(** White space and line terminators below code unit 256:
    TAB, LF, VT, FF, CR, SPACE and NBSP. *)
Definition is_ws (c : ascii) : bool :=
  let n := nat_of_ascii c in
  (((9 <=? n) && (n <=? 13)) || (n =? 32) || (n =? 160))%nat.

(** Upper-case letters below 256: A-Z, and the Latin-1 letters
    U+00C0..U+00DE without the multiplication sign U+00D7. *)
Definition is_upper (c : ascii) : bool :=
  let n := nat_of_ascii c in
  (((65 <=? n) && (n <=? 90))
   || ((192 <=? n) && (n <=? 222) && negb (n =? 215)))%nat.

Definition lower_unit (c : ascii) : ascii :=
  if is_upper c then ascii_of_nat (nat_of_ascii c + 32) else c.

Fixpoint toLowerCase (s : string) : string :=
  match s with
  | EmptyString => EmptyString
  | String c r => String (lower_unit c) (toLowerCase r)
  end.

Fixpoint trimStart (s : string) : string :=
  match s with
  | EmptyString => EmptyString
  | String c r => if is_ws c then trimStart r else s
  end.

Fixpoint trimEnd (s : string) : string :=
  match s with
  | EmptyString => EmptyString
  | String c r =>
      match trimEnd r with
      | EmptyString => if is_ws c then EmptyString else String c EmptyString
      | r' => String c r'
      end
  end.

Definition trim (s : string) : string := trimEnd (trimStart s).

(** [Array.prototype.includes] on an array of strings. *)
Definition includes (l : list string) (x : string) : bool :=
  existsb (String.eqb x) l.

Fixpoint startsWith (p s : string) : bool :=
  match p, s with
  | EmptyString, _ => true
  | String a p', String b s' => Ascii.eqb a b && startsWith p' s'
  | String _ _, EmptyString => false
  end.

End JsString.
Import JsString.

(* ===================================================================== *)
(** ** The document                                                       *)
(* ===================================================================== *)

(** What the script reads and writes of an element.  [eid] stands for the
    identity of the JavaScript object; [tagName] is the local name in
    lower case; [attrs] are the attributes, their names in lower case;
    [value] and [checked] are the properties, not the attributes. *)
Record Element := mkElement {
  eid : nat;
  tagName : string;
  attrs : list (string * string);
  textContent : string;
  value : string;
  checked : bool
}.

#[warnings="-register-all"]
Inductive Node := Elem (e : Element) (kids : list Node).

(** The children of the document node. *)
Definition Document := list Node.

Definition node_elem (n : Node) : Element := let 'Elem e _ := n in e.

(** Elements in document order, each with its ancestors, nearest first. *)
Fixpoint flatten (anc : list Element) (n : Node) : list (Element * list Element) :=
  match n with
  | Elem e kids => (e, anc) :: flat_map (flatten (e :: anc)) kids
  end.

Definition entries (d : Document) : list (Element * list Element) :=
  flat_map (flatten []) d.

Definition elements (d : Document) : list Element := map fst (entries d).

Fixpoint update_node (f : Element -> Element) (n : Node) : Node :=
  match n with
  | Elem e kids => Elem (f e) (map (update_node f) kids)
  end.

Definition update_doc (f : Element -> Element) (d : Document) : Document :=
  map (update_node f) d.

Definition set_value (i : nat) (v : string) (d : Document) : Document :=
  update_doc (fun e => if (eid e =? i)%nat
                       then mkElement (eid e) (tagName e) (attrs e) (textContent e) v (checked e)
                       else e) d.

Definition getAttribute (e : Element) (a : string) : option string :=
  option_map snd (find (fun kv => String.eqb (fst kv) a) (attrs e)).

(** [document.body]: the first [body] or [frameset] child of the [html]
    document element. *)
Definition document_body (d : Document) : option Element :=
  match d with
  | Elem h kids :: _ =>
      if String.eqb (tagName h) "html"
      then option_map node_elem
             (find (fun k => String.eqb (tagName (node_elem k)) "body"
                             || String.eqb (tagName (node_elem k)) "frameset") kids)
      else None
  | [] => None
  end.

(* ===================================================================== *)
(** ** Selectors                                                          *)
(* ===================================================================== *)

(** The fragment of the Selectors grammar the script itself writes:
    compound selectors made of an optional type selector and attribute
    tests [[a="v"]] and [[a^="v"]], joined by the descendant combinator
    (one space).  Every string of the fragment is a valid selector with
    the meaning given here; what a string outside the fragment means, if
    anything, is the browser's to say (see [beyond] below).  All
    elements are HTML elements of an HTML document. *)
Module Selector.

Inductive AttrTest :=
| AttrEq (name val : string)
| AttrPrefix (name val : string).

Record Compound := mkCompound {
  c_tag : option string;
  c_attrs : list AttrTest
}.

Definition t := list Compound.

Definition is_ident_char (c : ascii) : bool :=
  let n := nat_of_ascii c in
  (((97 <=? n) && (n <=? 122)) || ((65 <=? n) && (n <=? 90))
   || ((48 <=? n) && (n <=? 57)) || (n =? 45) || (n =? 95))%nat.

(** An identifier of the fragment starts with a letter or an underscore. *)
Definition is_ident_start (c : ascii) : bool :=
  let n := nat_of_ascii c in
  (((97 <=? n) && (n <=? 122)) || ((65 <=? n) && (n <=? 90)) || (n =? 95))%nat.

Definition is_quote (c : ascii) : bool := (nat_of_ascii c =? 34)%nat.

(** What cannot stand in a quoted value as it is: the backslash, which
    starts an escape, the line breaks LF, FF and CR, which end the string
    too early (FF and CR are read as LF), and NUL, which is read as
    another character. *)
Definition is_special (c : ascii) : bool :=
  let n := nat_of_ascii c in
  (Ascii.eqb c "\"%char || (n =? 10) || (n =? 12) || (n =? 13) || (n =? 0))%nat.

Definition snoc (s : string) (c : ascii) : string := s ++ String c EmptyString.

(** Parser states: where in a compound selector the reader stands. *)
Inductive PState :=
| PStart                                   (* a compound must begin here *)
| PTag (acc : string)                      (* inside a type selector *)
| PBetween                                 (* after a closing bracket *)
| PAttrName (acc : string)                 (* after an opening bracket *)
| PCaret (name : string)                   (* after ^, an = must follow *)
| PQuote (prefix : bool) (name : string)   (* after the operator *)
| PValue (prefix : bool) (name acc : string)
| PClose.                                  (* after the closing quote *)

Definition mk_test (prefix : bool) (name val : string) : AttrTest :=
  if prefix then AttrPrefix name val else AttrEq name val.

(** [done] holds the finished compounds and [cur] the one being read,
    both with their latest part first. *)
Fixpoint scan (st : PState) (done : list Compound) (cur : Compound)
         (s : string) : option t :=
  let finish := rev (mkCompound (c_tag cur) (rev (c_attrs cur)) :: done) in
  match s with
  | EmptyString =>
      match st with
      | PTag _ | PBetween => Some finish
      | _ => None
      end
  | String c r =>
      match st with
      | PStart =>
          if is_ident_start c then scan (PTag (String c EmptyString)) done
                                       (mkCompound (Some (String c EmptyString)) []) r
          else if Ascii.eqb c "["%char then scan (PAttrName EmptyString) done cur r
          else None
      | PTag acc =>
          if is_ident_char c then scan (PTag (snoc acc c)) done
                                       (mkCompound (Some (snoc acc c)) []) r
          else if Ascii.eqb c "["%char then scan (PAttrName EmptyString) done cur r
          else if Ascii.eqb c " "%char
               then scan PStart (mkCompound (c_tag cur) (rev (c_attrs cur)) :: done)
                         (mkCompound None []) r
          else None
      | PBetween =>
          if Ascii.eqb c "["%char then scan (PAttrName EmptyString) done cur r
          else if Ascii.eqb c " "%char
               then scan PStart (mkCompound (c_tag cur) (rev (c_attrs cur)) :: done)
                         (mkCompound None []) r
          else None
      | PAttrName acc =>
          match acc with
          | EmptyString =>
              if is_ident_start c then scan (PAttrName (snoc acc c)) done cur r
              else None
          | _ =>
              if is_ident_char c then scan (PAttrName (snoc acc c)) done cur r
              else if Ascii.eqb c "="%char then scan (PQuote false acc) done cur r
              else if Ascii.eqb c "^"%char then scan (PCaret acc) done cur r
              else None
          end
      | PCaret name =>
          if Ascii.eqb c "="%char then scan (PQuote true name) done cur r else None
      | PQuote p name =>
          if is_quote c then scan (PValue p name EmptyString) done cur r
          else None
      | PValue p name acc =>
          if is_quote c
          then scan PClose done
                    (mkCompound (c_tag cur) (mk_test p name acc :: c_attrs cur)) r
          else if is_special c then None
          else scan (PValue p name (snoc acc c)) done cur r
      | PClose =>
          if Ascii.eqb c "]"%char then scan PBetween done cur r else None
      end
  end.

Definition parse (s : string) : option t :=
  scan PStart [] (mkCompound None []) s.

(** The attributes whose values HTML compares without regard to the case
    of ASCII letters in a selector. *)
Definition value_insensitive (name : string) : bool :=
  existsb (String.eqb name)
    ["accept"; "accept-charset"; "align"; "alink"; "axis"; "bgcolor"; "charset";
     "checked"; "clear"; "codetype"; "color"; "compact"; "declare"; "defer"; "dir";
     "direction"; "disabled"; "enctype"; "face"; "frame"; "hreflang"; "http-equiv";
     "lang"; "language"; "link"; "media"; "method"; "multiple"; "nohref"; "noresize";
     "noshade"; "nowrap"; "readonly"; "rel"; "rev"; "rules"; "scope"; "scrolling";
     "selected"; "shape"; "target"; "text"; "type"; "valign"; "valuetype"; "vlink"].

(** ASCII lower case: A-Z only. *)
Fixpoint ascii_lower (s : string) : string :=
  match s with
  | EmptyString => EmptyString
  | String c r =>
      let n := nat_of_ascii c in
      String (if ((65 <=? n) && (n <=? 90))%nat then ascii_of_nat (n + 32) else c)
             (ascii_lower r)
  end.

(** The value [x] of the attribute [name] against the value [v] of the
    selector. *)
Definition same_value (name x v : string) : bool :=
  if value_insensitive name then String.eqb (ascii_lower x) (ascii_lower v)
  else String.eqb x v.

Definition prefix_value (name v x : string) : bool :=
  if value_insensitive name then startsWith (ascii_lower v) (ascii_lower x)
  else startsWith v x.

(** Attribute names match without regard to case, values exactly but for
    the attributes above; a prefix test with the empty string matches
    nothing. *)
Definition test_attr (a : AttrTest) (e : Element) : bool :=
  match a with
  | AttrEq n v =>
      match getAttribute e (toLowerCase n) with
      | Some x => same_value (toLowerCase n) x v
      | None => false
      end
  | AttrPrefix n v =>
      match getAttribute e (toLowerCase n) with
      | Some x => negb (String.eqb v EmptyString) && prefix_value (toLowerCase n) v x
      | None => false
      end
  end.

Definition matches_compound (c : Compound) (e : Element) : bool :=
  match c_tag c with
  | Some tg => String.eqb (toLowerCase tg) (tagName e)
  | None => true
  end
  && forallb (fun a => test_attr a e) (c_attrs c).

(** The compounds left of the subject, nearest first, against the
    ancestors, nearest first. *)
Fixpoint matches_ancestors (cs : list Compound) (anc : list Element) : bool :=
  match cs with
  | [] => true
  | c :: cs' =>
      (fix go (anc : list Element) : bool :=
         match anc with
         | [] => false
         | a :: anc' =>
             if matches_compound c a then matches_ancestors cs' anc' else go anc'
         end) anc
  end.

Definition matches (sel : t) (entry : Element * list Element) : bool :=
  match rev sel with
  | [] => false
  | c :: cs => matches_compound c (fst entry) && matches_ancestors cs (snd entry)
  end.

End Selector.

(** The search scope of a query: the document or one of its elements. *)
Inductive Container := TheDocument | Within (i : nat).

Definition in_scope (c : Container) (entry : Element * list Element) : bool :=
  match c with
  | TheDocument => true
  | Within i => existsb (fun a => (eid a =? i)%nat) (snd entry)
  end.

(** The double quote, and a string between double quotes. *)
Definition dquote : string := String (ascii_of_nat 34) EmptyString.
Definition quoted (s : string) : string := dquote ++ s ++ dquote.

(** Errors a run can end with.  All but the timeout of the waiter are
    thrown by the browser, with a name and a message of its choice. *)
Inductive JsError :=
| SyntaxError (selector : string)
| TimeoutError (message : string)
| TypeError (message : string)
| DomException (name message : string).

Example parse_name :
  Selector.parse ("input[name=" ++ quoted "email" ++ "]")
  = Some [Selector.mkCompound (Some "input") [Selector.AttrEq "name" "email"]].
Proof. reflexivity. Qed.

(* ===================================================================== *)
(** ** Worlds, effects and runs                                           *)
(* ===================================================================== *)

Inductive EventClass := PlainEvent | InputEvent | KeyboardEvent | MouseEvent.

(** [new Class(type, { key, bubbles })]. *)
Record DomEvent := mkEvent {
  ev_class : EventClass;
  ev_type : string;
  ev_key : option string;
  ev_bubbles : bool
}.

Inductive LogArg := LStr (s : string) | LList (l : list string).

(** What the script does to the outside, in the order it does it. *)
Inductive Effect :=
| Focus (i : nat)
| Click (i : nat)
| SetValue (i : nat) (v : string)          (* el.value = v *)
| NativeSetValue (i : nat) (v : string)    (* nativeSetter.call(el, v) *)
| Dispatch (i : nat) (ev : DomEvent)
| Sleep (ms : Z)                           (* a timer of ms milliseconds runs out *)
| ConsoleLog (args : list LogArg)
| ConsoleWarn (args : list LogArg)
| Uncaught (e : JsError).                  (* an error no caller can see *)

Record World := mkWorld {
  doc : Document;
  now : Z;
  trace : list Effect
}.

(** The page: how the document answers a focus, a click or an event of
    the script (the default action of the browser, such as a checkbox
    changing state under a click, and the handlers of the page, all run
    at once), what it does while time passes, and how late it lets a
    timer fire (never early).  It also says
    whether [HTMLInputElement.prototype], which every browser has, owns a
    [value] property and whether that has a setter, what an assignment
    to [value] does, and what selectors outside the fragment mean. *)
Record Host := mkHost {
  on_focus : nat -> Document -> Document;
  on_click : nat -> Document -> Document;
  on_event : nat -> DomEvent -> Document -> Document;
  on_elapse : Z -> Z -> Document -> Document;   (* from time t, for ms *)
  timer_late : Z -> Z -> N;                     (* set at time t, for ms *)
  value_descriptor : option bool;               (* Some true: has a setter *)
  on_assign : nat -> string -> Document -> JsError + (string * Document);
  on_native_set : nat -> string -> Document -> JsError + Document;
  beyond : string -> option (Document -> Element * list Element -> bool)
}.

(** [on_assign i v d] is the answer to [el.value = v]: the setter of the
    element, be it the browser's or one the page has installed, throws,
    or it leaves a document and a string that [el.value] reads right
    after.  The browser's setter of an input stores the string after a
    sanitization that depends on the type of the input (a text input
    loses line breaks, a date input keeps well-formed dates only) and
    throws for a file input.  [on_native_set] is
    the setter of [HTMLInputElement.prototype] called on an input.
    [beyond sel] is the meaning of a selector outside the fragment above:
    [None] when the browser refuses the string, else the test the
    selector stands for. *)

(** [container.querySelectorAll(sel)]: the descendants of the container
    that match, in document order.  Whether a selector is refused
    depends on its text alone. *)
Definition selects (host : Host) (sel : string)
  : option (Document -> Element * list Element -> bool) :=
  match Selector.parse sel with
  | Some s => Some (fun _ en => Selector.matches s en)
  | None => beyond host sel
  end.

Definition querySelectorAll (host : Host) (sel : string) (c : Container) (d : Document)
  : JsError + list Element :=
  match selects host sel with
  | None => inl (SyntaxError sel)
  | Some test =>
      inr (map fst (filter (fun en => in_scope c en && test d en) (entries d)))
  end.

(** [container.querySelector(sel)]: the first of them, or null. *)
Definition querySelector (host : Host) (sel : string) (c : Container) (d : Document)
  : JsError + option Element :=
  match querySelectorAll host sel c d with
  | inl e => inl e
  | inr l => inr (hd_error l)
  end.

(** The setter of a text input, which the fields assigned to on the
    sample pages are: line breaks are dropped, the rest is stored. *)
Fixpoint strip_newlines (s : string) : string :=
  match s with
  | EmptyString => EmptyString
  | String c r =>
      if ((nat_of_ascii c =? 10) || (nat_of_ascii c =? 13))%nat then strip_newlines r
      else String c (strip_newlines r)
  end.

Definition text_field (i : nat) (v : string) (d : Document)
  : JsError + (string * Document) :=
  inr (strip_newlines v, set_value i (strip_newlines v) d).

Definition native_text_field (i : nat) (v : string) (d : Document)
  : JsError + Document :=
  inr (set_value i (strip_newlines v) d).

(** The browser as far as the sample runs go, which use selectors of the
    fragment and broken ones: nothing outside the fragment is accepted. *)
Definition fragment_only (sel : string)
  : option (Document -> Element * list Element -> bool) := None.

(** Timers fire exactly when they are due. *)
Definition punctual (host : Host) : Prop :=
  forall t ms, timer_late host t ms = 0%N.

(** The page of text fields that never reacts. *)
Definition inert : Host :=
  mkHost (fun _ d => d) (fun _ d => d) (fun _ _ d => d) (fun _ _ d => d)
         (fun _ _ => 0%N) (Some true) text_field native_text_field fragment_only.

Inductive Completion (A : Type) :=
| Normal (a : A)          (* returned; for an async function: fulfilled *)
| Abrupt (e : JsError)    (* threw; for an async function: rejected *)
| Unsettled               (* the promise is never settled *)
| OutOfFuel.              (* the model was given too few timer ticks *)
Arguments Normal {A} a.
Arguments Abrupt {A} e.
Arguments Unsettled {A}.
Arguments OutOfFuel {A}.

Definition Run (A : Type) : Type := World -> Completion A * World.

Definition ret {A} (a : A) : Run A := fun w => (Normal a, w).

Definition bind {A B} (m : Run A) (k : A -> Run B) : Run B :=
  fun w =>
    match m w with
    | (Normal a, w') => k a w'
    | (Abrupt e, w') => (Abrupt e, w')
    | (Unsettled, w') => (Unsettled, w')
    | (OutOfFuel, w') => (OutOfFuel, w')
    end.

(** [try { m } catch (err) { handler(err) }]. *)
Definition try_catch {A} (m : Run A) (handler : JsError -> Run A) : Run A :=
  fun w =>
    match m w with
    | (Abrupt e, w') => handler e w'
    | r => r
    end.

Declare Scope run_scope.
Delimit Scope run_scope with run.
Notation "x <- m ;; k" := (bind m (fun x => k))
  (at level 61, m at next level, right associativity) : run_scope.
Notation "m ;; k" := (bind m (fun _ => k))
  (at level 61, right associativity) : run_scope.
Open Scope run_scope.

Definition emit (e : Effect) (w : World) : World :=
  mkWorld (doc w) (now w) (trace w ++ [e]).

Definition lift_query {A} (q : Document -> JsError + A) : Run A :=
  fun w =>
    match q (doc w) with
    | inl e => (Abrupt e, w)
    | inr a => (Normal a, w)
    end.

Section Primitives.

Variable host : Host.

Definition focus (i : nat) : Run unit :=
  fun w => (Normal tt, mkWorld (on_focus host i (doc w)) (now w) (trace w ++ [Focus i])).

Definition click (i : nat) : Run unit :=
  fun w => (Normal tt, mkWorld (on_click host i (doc w)) (now w) (trace w ++ [Click i])).

(** [el.value = v]; the run returns what [el.value] reads right after. *)
Definition assign_value (i : nat) (v : string) : Run string :=
  fun w =>
    match on_assign host i v (doc w) with
    | inl e => (Abrupt e, emit (SetValue i v) w)
    | inr (stored, d) => (Normal stored, mkWorld d (now w) (trace w ++ [SetValue i v]))
    end.

(** [nativeSetter.call(el, v)]: the setter of the prototype throws a
    TypeError on an element that is not an input.  An element that is
    not in the document is known to the page only. *)
Definition is_other_element (i : nat) (d : Document) : bool :=
  match find (fun e => (eid e =? i)%nat) (elements d) with
  | Some e => negb (String.eqb (tagName e) "input")
  | None => false
  end.

Definition native_set_value (i : nat) (v : string) : Run unit :=
  fun w =>
    if is_other_element i (doc w)
    then (Abrupt (TypeError "Illegal invocation"), emit (NativeSetValue i v) w)
    else match on_native_set host i v (doc w) with
         | inl e => (Abrupt e, emit (NativeSetValue i v) w)
         | inr d => (Normal tt, mkWorld d (now w) (trace w ++ [NativeSetValue i v]))
         end.

Definition dispatchEvent (i : nat) (ev : DomEvent) : Run unit :=
  fun w => (Normal tt,
            mkWorld (on_event host i ev (doc w)) (now w) (trace w ++ [Dispatch i ev])).

(** [await new Promise(resolve => setTimeout(resolve, ms))], and one
    period of [setInterval]: the timer fires [ms] later, or later still. *)
Definition sleep (ms : Z) : Run unit :=
  fun w =>
    let elapsed := (ms + Z.of_N (timer_late host (now w) ms))%Z in
    (Normal tt,
     mkWorld (on_elapse host (now w) elapsed (doc w)) (now w + elapsed)
             (trace w ++ [Sleep ms])).

Definition console_log (args : list LogArg) : Run unit :=
  fun w => (Normal tt, emit (ConsoleLog args) w).

Definition console_warn (args : list LogArg) : Run unit :=
  fun w => (Normal tt, emit (ConsoleWarn args) w).

Definition query (sel : string) (c : Container) : Run (option Element) :=
  lift_query (querySelector host sel c).

Definition queryAll (sel : string) (c : Container) : Run (list Element) :=
  lift_query (querySelectorAll host sel c).

Definition bubbling (cl : EventClass) (ty : string) : DomEvent :=
  mkEvent cl ty None true.

Definition enter_key (ty : string) : DomEvent :=
  mkEvent KeyboardEvent ty (Some "Enter") true.

(** *** Field and control setters *)

Definition fillInputBySelector (selector value : string) (container : Container)
  : Run unit :=
  el <- query selector container ;;
  match el with
  | Some el =>
      focus (eid el) ;;
      assign_value (eid el) value ;;
      dispatchEvent (eid el) (bubbling PlainEvent "input") ;;
      dispatchEvent (eid el) (bubbling PlainEvent "change")
  | None => console_warn [LStr "Input not found:"; LStr selector]
  end.

(** The template literal of the name-based entry points. *)
Definition name_selector (name : string) : string :=
  "input[name=" ++ quoted name ++ "]".

Definition fillInputByName (name value : string) (container : Container) : Run unit :=
  fillInputBySelector (name_selector name) value container.

(** The template literal of [setRadio]. *)
Definition radio_selector (name value : string) : string :=
  "input[name=" ++ quoted name ++ "][value=" ++ quoted value ++ "]".

Definition setRadio (name value : string) : Run unit :=
  el <- query (radio_selector name value) TheDocument ;;
  match el with
  | Some el => click (eid el)
  | None => console_warn [LStr "Radio not found:"; LStr name; LStr value]
  end.

Definition setCheckboxBySelector (selector : string) (checked_wanted : bool)
           (container : Container) : Run unit :=
  el <- query selector container ;;
  match el with
  | Some el =>
      if negb (Bool.eqb (checked el) checked_wanted)
      then click (eid el) ;;
           console_log [LStr "Checkbox clicked programmatically."]
      else ret tt
  | None => console_warn [LStr "Checkbox not found:"; LStr selector]
  end.

Definition setCheckboxByName (name : string) (checked_wanted : bool)
           (container : Container) : Run unit :=
  setCheckboxBySelector (name_selector name) checked_wanted container.

(** [Object.getOwnPropertyDescriptor(HTMLInputElement.prototype,
    'value')?.set], as a truth value. *)
Definition nativeSetter : bool :=
  match value_descriptor host with
  | Some has_set => has_set
  | None => false
  end.

(** [el] is [None] for a null or undefined argument. *)
Definition dateSetValue (el : option nat) (value : string) : Run unit :=
  match el with
  | None => ret tt
  | Some el =>
      if negb nativeSetter then ret tt
      else
        focus el ;;
        native_set_value el value ;;
        dispatchEvent el (bubbling InputEvent "input") ;;
        dispatchEvent el (bubbling PlainEvent "change")
  end.

Definition clickButton (selector : string) (container : Container) : Run unit :=
  btn <- query selector container ;;
  match btn with
  | Some btn => click (eid btn)
  | None => console_warn [LStr "Button not found:"; LStr selector]
  end.


(** *** The option matcher *)

Definition normalize (s : string) : string := toLowerCase (trim s).

(** The callback of both [options.find] calls. *)
Definition text_is (normalized : string) (opt : Element) : bool :=
  String.eqb (normalize (textContent opt)) normalized.

(** The [for (const alias of aliases)] loop; [None] is [undefined]. *)
Fixpoint alias_loop (options : list Element) (aliases : list string)
  : option Element :=
  match aliases with
  | [] => None
  | alias :: rest =>
      match find (text_is (normalize alias)) options with
      | Some m => Some m
      | None => alias_loop options rest
      end
  end.

(** [aliases] is an array, so [Array.isArray(aliases)] holds. *)
Definition findMatchingOption (options : list Element) (labelToMatch : string)
           (aliases : list string) : option Element :=
  match find (text_is (normalize labelToMatch)) options with
  | Some m => Some m
  | None => alias_loop options aliases
  end.

(** *** The chip reader and the active surface locator *)

Definition pills_selector : string :=
  "[id^=" ++ quoted "pill-" ++ "][data-automation-id=" ++ quoted "selectedItem"
  ++ "] p[data-automation-id=" ++ quoted "promptOption" ++ "]".

Definition getCurrentPills (container : Container) : Run (list string) :=
  ps <- queryAll pills_selector container ;;
  ret (map (fun p => toLowerCase (trim (textContent p))) ps).

Definition listbox_selector : string := "[role=" ++ quoted "listbox" ++ "]".

Definition getActiveDropdownContainer : Run (option Element) :=
  listboxes <- queryAll listbox_selector TheDocument ;;
  if (length listboxes =? 0)%nat then ret None
  else ret (nth_error listboxes (length listboxes - 1)).

(** *** The element-presence waiter *)

Definition timeout_message (selector : string) : string :=
  "Timeout: Element not found: " ++ selector.

Definition message (e : JsError) : string :=
  match e with
  | SyntaxError sel => "SyntaxError: " ++ sel
  | TimeoutError m | TypeError m | DomException _ m => m
  end.

(** The callback of [setInterval(..., 100)], once per unit of fuel.  A
    callback that throws settles nothing, and so does every later one. *)
Fixpoint poll (selector : string) (container : Container) (start timeout : Z)
         (fuel : nat) : Run Element :=
  match fuel with
  | O => fun w => (OutOfFuel, w)
  | S fuel' =>
      sleep 100 ;;
      fun w =>
        match querySelector host selector container (doc w) with
        | inl e => (Unsettled, emit (Uncaught e) w)
        | inr (Some el) => (Normal el, w)
        | inr None =>
            if (now w - start >? timeout)%Z
            then (Abrupt (TimeoutError (timeout_message selector)), w)
            else poll selector container start timeout fuel' w
        end
  end.

Definition waitForElement (selector : string) (container : Container)
           (timeout : Z) (fuel : nat) : Run Element :=
  fun w => poll selector container (now w) timeout fuel w.

(** *** The click-select flow *)

Definition selectFromDropdownOption (buttonSelector labelToMatch : string)
           (container : Container) (aliases : list string)
           (optionSelector : string) (fuel : nat) : Run unit :=
  button <- query buttonSelector container ;;
  match button with
  | None => console_warn [LStr "Dropdown button not found:"; LStr buttonSelector]
  | Some button =>
      click (eid button) ;;
      appeared <- try_catch
                    (waitForElement optionSelector TheDocument 5000 fuel ;; ret true)
                    (fun err =>
                       console_warn [LStr "Timed out waiting for dropdown options:";
                                     LStr (message err)] ;;
                       ret false) ;;
      if negb appeared then ret tt
      else
        activeDropdown <- getActiveDropdownContainer ;;
        match activeDropdown with
        | None => console_warn [LStr "⚠️ No active dropdown container found."]
        | Some activeDropdown =>
            options <- queryAll optionSelector (Within (eid activeDropdown)) ;;
            console_log [LStr "Dropdown options found:";
                         LList (map (fun o => trim (textContent o)) options)] ;;
            match findMatchingOption options labelToMatch aliases with
            | Some m => click (eid m)
            | None =>
                console_warn [LStr "Dropdown option not found:"; LStr labelToMatch;
                              LStr "Aliases tried:"; LList aliases]
            end
        end
  end.

(** *** The type-select flow *)

(** [labelToMatch] is a string or an array of strings. *)
Inductive Labels := OneLabel (s : string) | ManyLabels (l : list string).

Definition labelArray (labelToMatch : Labels) : list string :=
  match labelToMatch with
  | OneLabel s => [s]
  | ManyLabels l => l
  end.

(** Steps of one pass of the loop between the first chip check and the
    second: type, notify, settle, press and release Enter, settle.  The
    console line shows [trigger.value] as read right after the
    assignment. *)
Definition type_and_commit (trigger : nat) (candidate : string) : Run unit :=
  shown <- assign_value trigger candidate ;;
  console_log [LStr "Typing candidate:"; LStr candidate;
               LStr "→ Trigger value now:"; LStr shown] ;;
  dispatchEvent trigger (bubbling PlainEvent "input") ;;
  sleep 300 ;;
  dispatchEvent trigger (enter_key "keydown") ;;
  dispatchEvent trigger (enter_key "keyup") ;;
  sleep 500.

(** The [for (const candidate of candidates)] loop; it returns
    [unacceptedCandidates]. *)
Fixpoint type_loop (allowMultiple : bool) (trigger : nat) (container : Container)
         (candidates unaccepted : list string) : Run (list string) :=
  match candidates with
  | [] => ret unaccepted
  | candidate :: rest =>
      currentPills <- getCurrentPills container ;;
      if negb allowMultiple && includes currentPills (toLowerCase candidate)
      then console_log [LStr "Already present:"; LStr candidate] ;;
           ret unaccepted
      else
        type_and_commit trigger candidate ;;
        newPills <- getCurrentPills container ;;
        if includes newPills (toLowerCase candidate)
        then console_log [LStr "✅ Added:"; LStr candidate] ;;
             if negb allowMultiple then ret unaccepted
             else type_loop allowMultiple trigger container rest unaccepted
        else console_warn [LStr "❌ Candidate not accepted:"; LStr candidate] ;;
             type_loop allowMultiple trigger container rest (unaccepted ++ [candidate])%list
  end.

(** The lines after the loop. *)
Definition report_unaccepted (unacceptedCandidates : list string) : Run unit :=
  console_log [LStr "💡 Loop finished. Now printing unacceptedCandidates."] ;;
  if (0 <? length unacceptedCandidates)%nat
  then console_warn [LStr "Unaccepted candidates:"; LList unacceptedCandidates]
  else ret tt.

Definition selectByTypingFromDropdown (triggerSelector : string)
           (labelToMatch : Labels) (allowMultiple : bool) (container : Container)
           (aliases : list string) (optionSelector : string) : Run unit :=
  trigger <- query triggerSelector container ;;
  match trigger with
  | None => console_warn [LStr "Menu trigger not found:"; LStr triggerSelector]
  | Some trigger =>
      click (eid trigger) ;;
      let candidates := (labelArray labelToMatch ++ aliases)%list in
      unacceptedCandidates <- type_loop allowMultiple (eid trigger) container
                                        candidates [] ;;
      report_unaccepted unacceptedCandidates
  end.

(** *** Dismissing overlays *)

(** [setTimeout(callback, ms)] together with the run of its callback:
    what the callback throws reaches the page's error reporting, never
    the caller, who has returned by then. *)
Definition setTimeout (callback : Run unit) (ms : Z) : Run unit :=
  fun w =>
    match (sleep ms ;; callback) w with
    | (Abrupt e, w') => (Normal tt, emit (Uncaught e) w')
    | r => r
    end.

(** [document.body || document.querySelector('div')]. *)
Definition body_or_div : Run (option Element) :=
  fun w =>
    match document_body (doc w) with
    | Some b => (Normal (Some b), w)
    | None => query "div" TheDocument w
    end.

Definition clickAway : Run unit :=
  setTimeout
    (backdrop <- body_or_div ;;
     match backdrop with
     | Some backdrop =>
         dispatchEvent (eid backdrop) (bubbling MouseEvent "mousedown") ;;
         dispatchEvent (eid backdrop) (bubbling MouseEvent "mouseup") ;;
         dispatchEvent (eid backdrop) (bubbling MouseEvent "click")
     | None => ret tt
     end)
    500.

End Primitives.

(* ===================================================================== *)
(** ** The revision of utils.js                                           *)
(* ===================================================================== *)

(** utils.js, first part.  Its [fillInputBySelector], [fillInputByName],
    [setRadio], [dateSetValue], [clickButton], [delay] and [clickAway]
    are those above word for word; the functions below differ: they take
    no container, and the dropdown is selected after a fixed pause. *)
Module UtilsJs.
Section UtilsJs.

Variable host : Host.

Definition selectDropdownByLabel (buttonSelector labelToMatch optionSelector : string)
           (container : Container) : Run unit :=
  button <- query host buttonSelector container ;;
  match button with
  | None => console_warn [LStr "Dropdown button not found:"; LStr buttonSelector]
  | Some button =>
      click host (eid button) ;;
      setTimeout host
        (options <- queryAll host optionSelector container ;;
         match find (fun opt => String.eqb (toLowerCase (trim (textContent opt)))
                                           (toLowerCase (trim labelToMatch))) options with
         | Some m => click host (eid m)
         | None => console_warn [LStr "Dropdown option not found:"; LStr labelToMatch]
         end)
        300
  end.

Definition setCheckboxBySelector (selector : string) (checked_wanted : bool)
  : Run unit :=
  el <- query host selector TheDocument ;;
  match el with
  | Some el =>
      if negb (Bool.eqb (checked el) checked_wanted)
      then click host (eid el) ;;
           console_log [LStr "Checkbox clicked programmatically."]
      else ret tt
  | None => console_warn [LStr "Checkbox not found:"; LStr selector]
  end.

Definition setCheckboxByName (name : string) (checked_wanted : bool) : Run unit :=
  setCheckboxBySelector (name_selector name) checked_wanted.

Fixpoint poll (selector : string) (start timeout : Z) (fuel : nat) : Run Element :=
  match fuel with
  | O => fun w => (OutOfFuel, w)
  | S fuel' =>
      sleep host 100 ;;
      fun w =>
        match querySelector host selector TheDocument (doc w) with
        | inl e => (Unsettled, emit (Uncaught e) w)
        | inr (Some el) => (Normal el, w)
        | inr None =>
            if (now w - start >? timeout)%Z
            then (Abrupt (TimeoutError (timeout_message selector)), w)
            else poll selector start timeout fuel' w
        end
  end.

Definition waitForElement (selector : string) (timeout : Z) (fuel : nat)
  : Run Element :=
  fun w => poll selector (now w) timeout fuel w.

End UtilsJs.
End UtilsJs.

(* ===================================================================== *)
(** ** The earliest revision                                              *)
(* ===================================================================== *)

(** utils.js, second part: no container anywhere, no [change] event
    after filling, no warning from [clickButton]. *)
Module Legacy.
Section Legacy.

Variable host : Host.

Definition fillInputBySelector (selector value : string) : Run unit :=
  el <- query host selector TheDocument ;;
  match el with
  | Some el =>
      focus host (eid el) ;;
      assign_value host (eid el) value ;;
      dispatchEvent host (eid el) (bubbling PlainEvent "input")
  | None => console_warn [LStr "Input not found:"; LStr selector]
  end.

Definition fillInputByName (name value : string) : Run unit :=
  fillInputBySelector (name_selector name) value.

Definition clickButton (selector : string) : Run unit :=
  btn <- query host selector TheDocument ;;
  match btn with
  | Some btn => click host (eid btn)
  | None => ret tt
  end.

End Legacy.
End Legacy.

(* ===================================================================== *)
(** ** What the specification says, as predicates                         *)
(* ===================================================================== *)

Open Scope list_scope.

(** White space below code unit 256, by code: TAB, LF, VT, FF, CR, SPACE
    and NBSP. *)
Definition white (c : ascii) : Prop :=
  In (nat_of_ascii c) [9; 10; 11; 12; 13; 32; 160]%nat.

(** A capital letter below 256: A to Z and the Latin-1 capitals, which
    leave out the multiplication sign. *)
Definition capital (c : ascii) : Prop :=
  let n := nat_of_ascii c in
  (65 <= n <= 90 \/ (192 <= n <= 222 /\ n <> 215))%nat.

(** Two code units that are one letter but for its case: a small letter
    is 32 above its capital. *)
Definition same_letter (a b : ascii) : Prop :=
  a = b
  \/ (capital a /\ nat_of_ascii b = nat_of_ascii a + 32)%nat
  \/ (capital b /\ nat_of_ascii a = nat_of_ascii b + 32)%nat.

Inductive same_letters : string -> string -> Prop :=
| same_empty : same_letters EmptyString EmptyString
| same_more a b r s :
    same_letter a b -> same_letters r s -> same_letters (String a r) (String b s).

(** A run of white space. *)
Inductive margin : string -> Prop :=
| margin_empty : margin EmptyString
| margin_more c r : white c -> margin r -> margin (String c r).

(** A text with no white space at its first and at its last place. *)
Definition bare (s : string) : Prop :=
  (forall c r, s = String c r -> ~ white c)
  /\ (forall r c, s = (r ++ String c EmptyString)%string -> ~ white c).

(** [core] is [s] without the white space at its two ends. *)
Definition core_of (s core : string) : Prop :=
  bare core /\ exists l r, margin l /\ margin r /\ s = (l ++ core ++ r)%string.

(** Two texts that are equal once trimmed and case-folded. *)
Definition same_text (a b : string) : Prop :=
  exists ca cb, core_of a ca /\ core_of b cb /\ same_letters ca cb.

(** The option's trimmed, case-folded text equals the trimmed,
    case-folded string. *)
Definition matches_text (s : string) (o : Element) : Prop :=
  same_text (textContent o) s.

(** [o] is the first option of the list, in list order, that matches. *)
Definition first_matching (s : string) (options : list Element) (o : Element) : Prop :=
  exists pre post,
    options = pre ++ o :: post /\ matches_text s o /\
    forall x, In x pre -> ~ matches_text s x.

Definition none_matching (s : string) (options : list Element) : Prop :=
  forall x, In x options -> ~ matches_text s x.

(** The contract of the option matcher, in the words of the
    specification: the primary label first, then the aliases in their
    order, else no match. *)
Inductive matcher_contract (options : list Element) (label : string)
          (aliases : list string) : option Element -> Prop :=
| by_label o :
    first_matching label options o ->
    matcher_contract options label aliases (Some o)
| by_alias earlier alias later o :
    none_matching label options ->
    aliases = earlier ++ alias :: later ->
    (forall a, In a earlier -> none_matching a options) ->
    first_matching alias options o ->
    matcher_contract options label aliases (Some o)
| no_match :
    none_matching label options ->
    (forall a, In a aliases -> none_matching a options) ->
    matcher_contract options label aliases None.

(** The elements of the document that carry [role="listbox"], in
    document order. *)
Definition is_listbox (e : Element) : bool :=
  match getAttribute e "role" with
  | Some r => String.eqb r "listbox"
  | None => false
  end.

Definition listboxes (d : Document) : list Element :=
  filter is_listbox (elements d).

(** The contract of the active surface locator: absence when there is no
    listbox, else the last one in document order. *)
Inductive locator_contract (d : Document) : option Element -> Prop :=
| no_surface : listboxes d = [] -> locator_contract d None
| last_surface before x : listboxes d = before ++ [x] -> locator_contract d (Some x).

(** A name that can stand between the quotes of the template as it is:
    no double quote, no backslash, no line break, no NUL. *)
Definition plain_char (c : ascii) : bool :=
  negb (Selector.is_quote c) && negb (Selector.is_special c).

Fixpoint plain_name (s : string) : bool :=
  match s with
  | EmptyString => true
  | String c r => plain_char c && plain_name r
  end.

(** The inputs named [name], in document order. *)
Definition is_input_named (name : string) (e : Element) : bool :=
  String.eqb (tagName e) "input" &&
  match getAttribute e "name" with
  | Some n => String.eqb n name
  | None => false
  end.

Definition inputs_named (name : string) (d : Document) : list Element :=
  filter (is_input_named name) (elements d).

(** How often the trace dispatches an event of the given type, on any
    element and on one element. *)
Definition is_dispatch_of (ty : string) (e : Effect) : bool :=
  match e with
  | Dispatch _ ev => String.eqb (ev_type ev) ty
  | _ => false
  end.

Definition is_dispatch_on (ty : string) (i : nat) (e : Effect) : bool :=
  match e with
  | Dispatch j ev => (j =? i)%nat && String.eqb (ev_type ev) ty
  | _ => false
  end.

Definition dispatched (ty : string) (t : list Effect) : nat :=
  length (filter (is_dispatch_of ty) t).

Definition dispatched_on (ty : string) (i : nat) (t : list Effect) : nat :=
  length (filter (is_dispatch_on ty i) t).

(** Effects that touch the page: everything but the console. *)
Definition touches_page (e : Effect) : bool :=
  match e with
  | ConsoleLog _ | ConsoleWarn _ | Uncaught _ => false
  | _ => true
  end.

Definition with_value (i : nat) (v : string) (e : Element) : Element :=
  if (eid e =? i)%nat
  then mkElement (eid e) (tagName e) (attrs e) (textContent e) v (checked e)
  else e.

(** The selector of the name-based entry points in the words of the
    specification: [input[name="<name>"]]. *)
Definition derived_selector (name : string) : string :=
  ("input[name=" ++ dquote ++ name ++ dquote ++ "]")%string.

(** What a run added to the trace. *)
Definition added (w w' : World) : list Effect :=
  skipn (length (trace w)) (trace w').

(** The selected chips of a container, as the documentation of
    [getCurrentPills] has them: the normalized texts of the [p] elements
    marked [promptOption] below an element whose id starts with [pill-]
    and which is marked [selectedItem]. *)
Definition attr_is (a v : string) (e : Element) : bool :=
  match getAttribute e a with
  | Some x => String.eqb x v
  | None => false
  end.

Definition is_pill (e : Element) : bool :=
  match getAttribute e "id" with
  | Some x => startsWith "pill-" x
  | None => false
  end
  && attr_is "data-automation-id" "selectedItem" e.

Definition is_chip_label (en : Element * list Element) : bool :=
  String.eqb (tagName (fst en)) "p"
  && attr_is "data-automation-id" "promptOption" (fst en)
  && existsb is_pill (snd en).

Definition chips (container : Container) (d : Document) : list string :=
  map (fun p => toLowerCase (trim (textContent p)))
      (map fst (filter (fun en => in_scope container en && is_chip_label en)
                       (entries d))).

(** The chip labels of a container and what it is for a candidate to be
    shown as a chip as the flow sees it: the text of a chip label,
    trimmed, is the candidate as it is, but for the case of letters. *)
Definition chip_labels (container : Container) (d : Document) : list Element :=
  map fst (filter (fun en => in_scope container en && is_chip_label en) (entries d)).

Definition shown_as_chip (container : Container) (d : Document) (candidate : string)
  : Prop :=
  exists p core,
    In p (chip_labels container d) /\ core_of (textContent p) core
    /\ same_letters core candidate.

(** Typing and committing one candidate, as the page sees it. *)
Definition attempt_effects (trigger : nat) (candidate : string) : list Effect :=
  [SetValue trigger candidate;
   Dispatch trigger (bubbling PlainEvent "input");
   Sleep 300;
   Dispatch trigger (enter_key "keydown");
   Dispatch trigger (enter_key "keyup");
   Sleep 500].

(** The world after console lines only. *)
Definition extend (w : World) (t : list Effect) : World :=
  mkWorld (doc w) (now w) (trace w ++ t).

(** What the flow prints after its loop. *)
Definition report_lines (unaccepted : list string) : list Effect :=
  ConsoleLog [LStr "💡 Loop finished. Now printing unacceptedCandidates."]
  :: match unaccepted with
     | [] => []
     | _ => [ConsoleWarn [LStr "Unaccepted candidates:"; LList unaccepted]]
     end.

(** The state of the page: its document and its clock.  [react] is the
    answer of the page to one thing the script does, [replay] its answer
    to a sequence of them; console lines leave the page alone, and so
    does an assignment that throws. *)
Definition PageState : Type := Document * Z.

Definition state_of (w : World) : PageState := (doc w, now w).

Definition react (host : Host) (p : PageState) (e : Effect) : PageState :=
  let (d, t) := p in
  match e with
  | Focus i => (on_focus host i d, t)
  | Click i => (on_click host i d, t)
  | SetValue i v =>
      match on_assign host i v d with
      | inr (_, d') => (d', t)
      | inl _ => (d, t)
      end
  | NativeSetValue i v =>
      if is_other_element i d then (d, t)
      else match on_native_set host i v d with
           | inr d' => (d', t)
           | inl _ => (d, t)
           end
  | Dispatch i ev => (on_event host i ev d, t)
  | Sleep ms =>
      let elapsed := (ms + Z.of_N (timer_late host t ms))%Z in
      (on_elapse host t elapsed d, (t + elapsed)%Z)
  | ConsoleLog _ | ConsoleWarn _ | Uncaught _ => (d, t)
  end.

Definition replay (host : Host) (es : list Effect) (p : PageState) : PageState :=
  fold_left (react host) es p.

(** The element takes every value assigned to it: [el.value = v] never
    throws.  (A file input throws for every string but the empty one.) *)
Definition takes_values (host : Host) (i : nat) : Prop :=
  forall v d, exists stored d', on_assign host i v d = inr (stored, d').

(** The assignment stores the string as it is, in the element assigned
    to and nowhere else. *)
Definition stores (host : Host) (i : nat) (v : string) : Prop :=
  forall d, on_assign host i v d = inr (v, set_value i v d).

(** The candidate list in the words of the specification: the target
    labels in their order, one label when a single string is given,
    followed by the aliases in theirs. *)
Definition target_labels (labelToMatch : Labels) : list string :=
  match labelToMatch with
  | OneLabel label => [label]
  | ManyLabels labels => labels
  end.

Definition candidate_list (labelToMatch : Labels) (aliases : list string)
  : list string :=
  target_labels labelToMatch ++ aliases.

(** The candidate is among the chips of the document. *)
Definition accepted (container : Container) (candidate : string) (d : Document) : bool :=
  includes (chips container d) (toLowerCase candidate).

(** The line printed for a candidate after its check. *)
Definition verdict (candidate : string) (ok : bool) : Effect :=
  if ok then ConsoleLog [LStr "✅ Added:"; LStr candidate]
  else ConsoleWarn [LStr "❌ Candidate not accepted:"; LStr candidate].

Definition is_verdict (e : Effect) : bool :=
  match e with
  | ConsoleLog (LStr s :: _) => String.eqb s "✅ Added:"
  | ConsoleWarn (LStr s :: _) => String.eqb s "❌ Candidate not accepted:"
  | _ => false
  end.

(** Every candidate with what its check finds, when each candidate is
    typed and committed in turn and looked for among the chips of the
    page as it is after that. *)
Fixpoint checks (host : Host) (trigger : nat) (container : Container)
         (candidates : list string) (p : PageState) : list (string * bool) :=
  match candidates with
  | [] => []
  | c :: rest =>
      let p1 := replay host (attempt_effects trigger c) p in
      (c, accepted container c (fst p1)) :: checks host trigger container rest p1
  end.

(** The candidates whose check found nothing. *)
Definition rejected (outcome : list (string * bool)) : list string :=
  map fst (filter (fun r => negb (snd r)) outcome).

(** The world when the interval timer has fired [k] times. *)
Fixpoint ticks (host : Host) (k : nat) (w : World) : World :=
  match k with
  | O => w
  | S k' => ticks host k' (snd (sleep host 100 w))
  end.

(** The first firing at or after a delay of [D] milliseconds. *)
Definition first_tick_from (D : Z) : nat := Nat.max 1 (Z.to_nat ((D + 99) / 100)).

(** *** Sample pages and hosts *)

Definition plain (i : nat) (tag : string) (a : list (string * string))
           (text : string) : Element :=
  mkElement i tag a text EmptyString false.

(** A form with an email input, an unchecked checkbox, two listboxes and
    one selected chip. *)
Definition sample_page : Document :=
  [Elem (plain 0 "html" [] EmptyString)
     [Elem (plain 1 "head" [] EmptyString) [];
      Elem (plain 2 "body" [] EmptyString)
        [Elem (plain 3 "input" [("name", "email")] EmptyString) [];
         Elem (plain 4 "div" [("role", "listbox")] EmptyString)
           [Elem (plain 5 "li" [("role", "option")] "  Yes ") []];
         Elem (plain 6 "div" [("id", "pill-1");
                              ("data-automation-id", "selectedItem")] EmptyString)
           [Elem (plain 7 "span" [] EmptyString)
              [Elem (plain 8 "p" [("data-automation-id", "promptOption")]
                           " Python ") []]];
         Elem (plain 9 "div" [("role", "listbox")] EmptyString)
           [Elem (plain 10 "li" [("role", "option")] "No") []];
         Elem (plain 11 "input" [("type", "checkbox"); ("name", "agree")]
                     EmptyString) [];
         Elem (plain 12 "input" [("id", "skills")] EmptyString) []]]].

Definition sample_world : World := mkWorld sample_page 0 [].

(** A document without a body and without a [div]. *)
Definition bare_page : Document := [Elem (plain 0 "svg" [] EmptyString) []].

Definition bare_world : World := mkWorld bare_page 0 [].

(** A page whose [HTMLInputElement.prototype.value] has no setter. *)
Definition setterless : Host :=
  mkHost (fun _ d => d) (fun _ d => d) (fun _ _ d => d) (fun _ _ d => d)
         (fun _ _ => 0%N) (Some false) text_field native_text_field fragment_only.

Definition value_of (i : nat) (d : Document) : option string :=
  option_map value (find (fun e => (eid e =? i)%nat) (elements d)).

Definition chip_node (label : string) : Node :=
  Elem (plain 100 "div" [("id", "pill-new"); ("data-automation-id", "selectedItem")]
              EmptyString)
       [Elem (plain 101 "p" [("data-automation-id", "promptOption")] label) []].

(** A page that turns the value of the trigger into a chip when Enter is
    released, unless the value is Rust. *)
Definition chip_host : Host :=
  mkHost (fun _ d => d) (fun _ d => d)
         (fun i ev d =>
            if String.eqb (ev_type ev) "keyup"
            then match value_of i d with
                 | Some v => if String.eqb v "Rust" then d else d ++ [chip_node v]
                 | None => d
                 end
            else d)
         (fun _ _ d => d) (fun _ _ => 0%N) (Some true)
         text_field native_text_field fragment_only.

(** A page that is bare until 250 ms have passed and the sample page from
    then on. *)
Definition appearing_host : Host :=
  mkHost (fun _ d => d) (fun _ d => d) (fun _ _ d => d)
         (fun t ms _ => if (250 <=? t + ms)%Z then sample_page else bare_page)
         (fun _ _ => 0%N) (Some true) text_field native_text_field fragment_only.

(** A page with one button, and a host that shows the sample page once
    250 ms have passed. *)
Definition closed_page : Document :=
  [Elem (plain 0 "html" [] EmptyString)
     [Elem (plain 2 "body" [] EmptyString)
        [Elem (plain 20 "button" [("id", "open")] EmptyString) []]]].

Definition closed_world : World := mkWorld closed_page 0 [].

Definition opening_host : Host :=
  mkHost (fun _ d => d) (fun _ d => d) (fun _ _ d => d)
         (fun t ms _ => if (250 <=? t + ms)%Z then sample_page else closed_page)
         (fun _ _ => 0%N) (Some true) text_field native_text_field fragment_only.

Definition open_selector : string := ("button[id=" ++ quoted "open" ++ "]")%string.

Definition missing_selector : string := ("[role=" ++ quoted "tooltip" ++ "]")%string.

Definition option_selector : string := ("[role=" ++ quoted "option" ++ "]")%string.

Definition skills_input : Element := plain 12 "input" [("id", "skills")] EmptyString.

Definition agree_checkbox : Element :=
  plain 11 "input" [("type", "checkbox"); ("name", "agree")] EmptyString.

Definition first_option : Element := plain 5 "li" [("role", "option")] "  Yes ".

Definition skills_selector : string := ("input[id=" ++ quoted "skills" ++ "]")%string.

(** Induction on a node with the property at hand for all its children. *)
Fixpoint Node_forall_ind (P : Node -> Prop)
         (step : forall e kids, Forall P kids -> P (Elem e kids)) (n : Node) : P n :=
  match n with
  | Elem e kids =>
      step e kids
           ((fix all (l : list Node) : Forall P l :=
               match l with
               | [] => Forall_nil P
               | k :: r => Forall_cons k (Node_forall_ind P step k) (all r)
               end) kids)
  end.

(* ===================================================================== *)
(** ** The revision with the earlier type-select flow                     *)
(* ===================================================================== *)

(** The type-select flow of the revision without [getCurrentPills].  Its
    [try] block queries the selected items and then reads
    [selectedLabels], a name that the file declares nowhere; the page is
    taken to have no global of that name, so the read throws a
    ReferenceError.  Whatever the block throws, the bare [catch] prints
    its warning and goes on with the next candidate.  [labelToMatch] is
    one string here, and the flag, spelled [allowMutiple] in the
    parameter list, is never read. *)
Module Part000.
Section Part000.

Variable host : Host.

Definition selected_selector : string :=
  ("[data-automation-id=" ++ quoted "selectedItem" ++ "] [data-automation-id="
   ++ quoted "promptOption" ++ "]")%string.

(** The [try] block with its [catch]: the query throws or returns, and
    the name that follows is not there. *)
Definition check_selected (container : Container) (candidate : string) : Run unit :=
  fun w =>
    match querySelectorAll host selected_selector container (doc w) with
    | inl _ | inr _ =>
        console_warn [LStr "No selected item appeared after typing candidate:";
                      LStr candidate] w
    end.

(** One pass of the loop. *)
Definition attempt (trigger : nat) (container : Container) (candidate : string)
  : Run unit :=
  shown <- assign_value host trigger candidate ;;
  console_log [LStr "Typing candidate:"; LStr candidate;
               LStr "→ Trigger value now:"; LStr shown] ;;
  dispatchEvent host trigger (bubbling PlainEvent "input") ;;
  sleep host 300 ;;
  dispatchEvent host trigger (enter_key "keydown") ;;
  dispatchEvent host trigger (enter_key "keyup") ;;
  sleep host 300 ;;
  check_selected container candidate.

Fixpoint type_loop (trigger : nat) (container : Container) (candidates : list string)
  : Run unit :=
  match candidates with
  | [] => ret tt
  | candidate :: rest =>
      attempt trigger container candidate ;;
      type_loop trigger container rest
  end.

Definition selectByTypingFromDropdown (triggerSelector labelToMatch : string)
           (allowMutiple : bool) (container : Container) (aliases : list string)
           (optionSelector : string) : Run unit :=
  trigger <- query host triggerSelector container ;;
  match trigger with
  | None => console_warn [LStr "Menu trigger not found:"; LStr triggerSelector]
  | Some trigger =>
      click host (eid trigger) ;;
      type_loop (eid trigger) container (labelToMatch :: aliases)
  end.

End Part000.
End Part000.

(* ===================================================================== *)
(** ** Further definitions                                                *)
(* ===================================================================== *)

(** *** The entry points *)






Definition is_warning (e : Effect) : bool :=
  match e with
  | ConsoleWarn _ => true
  | _ => false
  end.

(** The browser refuses the selector. *)
Definition refused (host : Host) (sel : string) : Prop := selects host sel = None.




(** A page in a tab in the background: the timers are throttled to one
    firing a second. *)
Definition throttled : Host :=
  mkHost (fun _ d => d) (fun _ d => d) (fun _ _ d => d) (fun _ _ d => d)
         (fun _ ms => Z.to_N (1000 - ms)) (Some true)
         text_field native_text_field fragment_only.

(** A page whose fields keep nothing of what is assigned to them, as a
    date input does with a string that is no date, and a form with a
    date input named email. *)
Definition picky : Host :=
  mkHost (fun _ d => d) (fun _ d => d) (fun _ _ d => d) (fun _ _ d => d)
         (fun _ _ => 0%N) (Some true)
         (fun i _ d => inr (EmptyString, set_value i EmptyString d))
         (fun i _ d => inr (set_value i EmptyString d))
         fragment_only.

Definition date_page : Document :=
  [Elem (plain 0 "html" [] EmptyString)
     [Elem (plain 2 "body" [] EmptyString)
        [Elem (plain 3 "input" [("type", "date"); ("name", "email")] EmptyString) []]]].

Definition date_world : World := mkWorld date_page 0 [].

(** A page whose file inputs throw for every string but the empty one,
    and a form with a file input. *)
Definition is_file_input (i : nat) (d : Document) : bool :=
  match find (fun e => (eid e =? i)%nat) (elements d) with
  | Some e => String.eqb (tagName e) "input"
              && match getAttribute e "type" with
                 | Some t => String.eqb (Selector.ascii_lower t) "file"
                 | None => false
                 end
  | None => false
  end.

Definition filing : Host :=
  mkHost (fun _ d => d) (fun _ d => d) (fun _ _ d => d) (fun _ _ d => d)
         (fun _ _ => 0%N) (Some true)
         (fun i v d =>
            if is_file_input i d && negb (String.eqb v EmptyString)
            then inl (DomException "InvalidStateError" EmptyString)
            else text_field i v d)
         (fun i v d =>
            if is_file_input i d && negb (String.eqb v EmptyString)
            then inl (DomException "InvalidStateError" EmptyString)
            else native_text_field i v d)
         fragment_only.

Definition file_page : Document :=
  [Elem (plain 0 "html" [] EmptyString)
     [Elem (plain 2 "body" [] EmptyString)
        [Elem (plain 3 "input" [("type", "file"); ("name", "cv")] EmptyString) []]]].

Definition file_world : World := mkWorld file_page 0 [].

(** A selector that breaks off inside a bracket. *)
Definition broken_selector : string := "li[".

(** The default action of a click on a checkbox: the checked state
    flips. *)
Definition toggle_checked (i : nat) (e : Element) : Element :=
  if (eid e =? i)%nat
  then mkElement (eid e) (tagName e) (attrs e) (textContent e) (value e)
                 (negb (checked e))
  else e.

Definition toggle (i : nat) (d : Document) : Document :=
  update_doc (toggle_checked i) d.

(** A page on which a click does that and nothing else. *)
Definition plain_checkboxes (host : Host) : Prop :=
  forall i d, on_click host i d = toggle i d.

Definition toggling : Host :=
  mkHost (fun _ d => d) toggle (fun _ _ d => d) (fun _ _ d => d)
         (fun _ _ => 0%N) (Some true) text_field native_text_field fragment_only.

(** The inputs with the given name and value attributes, and the [div]
    elements, in document order. *)
Definition is_radio (name val : string) (e : Element) : bool :=
  String.eqb (tagName e) "input" && attr_is "name" name e && attr_is "value" val e.

Definition radios (name val : string) (d : Document) : list Element :=
  filter (is_radio name val) (elements d).

Definition divs (d : Document) : list Element :=
  filter (fun e => String.eqb (tagName e) "div") (elements d).

(** A form with two radio buttons of one group. *)
Definition radio_page : Document :=
  [Elem (plain 0 "html" [] EmptyString)
     [Elem (plain 2 "body" [] EmptyString)
        [Elem (plain 30 "input" [("type", "radio"); ("name", "remote"); ("value", "yes")]
                    EmptyString) [];
         Elem (plain 31 "input" [("type", "radio"); ("name", "remote"); ("value", "no")]
                    EmptyString) []]]].

Definition radio_world : World := mkWorld radio_page 0 [].

(** A document without a body whose first [div] is below its root. *)
Definition div_page : Document :=
  [Elem (plain 0 "section" [] EmptyString)
     [Elem (plain 40 "div" [] EmptyString) [Elem (plain 41 "div" [] EmptyString) []]]].

Definition div_world : World := mkWorld div_page 0 [].

(** Typing and committing one candidate in that revision, as the page
    sees it, and the warning that follows. *)
Definition early_attempt_effects (trigger : nat) (candidate : string) : list Effect :=
  [SetValue trigger candidate;
   Dispatch trigger (bubbling PlainEvent "input");
   Sleep 300;
   Dispatch trigger (enter_key "keydown");
   Dispatch trigger (enter_key "keyup");
   Sleep 300].

Definition no_item_warning (candidate : string) : Effect :=
  ConsoleWarn [LStr "No selected item appeared after typing candidate:"; LStr candidate].

(** The inputs named [name] below a container, in document order. *)
Definition inputs_named_in (container : Container) (name : string) (d : Document)
  : list Element :=
  map fst (filter (fun en => in_scope container en && is_input_named name (fst en))
                  (entries d)).

(** Two names with a double quote: one that breaks the selector, one
    that turns it into a selector for other attributes. *)
Definition broken_name : string := ("a" ++ dquote ++ "b")%string.

Definition smuggling_name : string :=
  ("x" ++ dquote ++ "][type=" ++ dquote ++ "hidden")%string.

(* ===================================================================== *)
(** ** Theorems                                                           *)
(* ===================================================================== *)

(** *** Strings *)

Lemma append_assoc (a b c : string) : ((a ++ b) ++ c = a ++ b ++ c)%string.
Proof. induction a as [|x a IH]; simpl; [reflexivity | now rewrite IH]. Qed.

Lemma append_nil_r (a : string) : (a ++ EmptyString)%string = a.
Proof. induction a as [|x a IH]; simpl; [reflexivity | now rewrite IH]. Qed.

(** *** White space, capitals and the two ends of a text *)

Lemma is_ws_white c : is_ws c = true <-> white c.
Proof.
  unfold is_ws, white. cbn [In].
  rewrite !orb_true_iff, andb_true_iff, !Nat.leb_le, !Nat.eqb_eq. lia.
Qed.

Lemma is_ws_not_white c : is_ws c = false <-> ~ white c.
Proof. rewrite <- is_ws_white. destruct (is_ws c); split; congruence. Qed.

Lemma is_upper_capital c : is_upper c = true <-> capital c.
Proof.
  unfold is_upper, capital. cbv zeta.
  rewrite orb_true_iff, !andb_true_iff, negb_true_iff, !Nat.leb_le, Nat.eqb_neq. lia.
Qed.

Lemma is_upper_not_capital c : is_upper c = false <-> ~ capital c.
Proof. rewrite <- is_upper_capital. destruct (is_upper c); split; congruence. Qed.

Lemma nat_of_ascii_inj a b : nat_of_ascii a = nat_of_ascii b -> a = b.
Proof. intros H. rewrite <- (ascii_nat_embedding a), H. apply ascii_nat_embedding. Qed.

Lemma lower_unit_same a b : lower_unit a = lower_unit b <-> same_letter a b.
Proof.
  unfold lower_unit, same_letter.
  pose proof (nat_ascii_bounded a) as Ba. pose proof (nat_ascii_bounded b) as Bb.
  destruct (is_upper a) eqn:Ua, (is_upper b) eqn:Ub.
  - apply is_upper_capital in Ua, Ub. unfold capital in *. split.
    + intros H. left. apply nat_of_ascii_inj.
      apply (f_equal nat_of_ascii) in H.
      rewrite !nat_ascii_embedding in H by lia. lia.
    + intros [-> | [[_ H] | [_ H]]]; [reflexivity | lia | lia].
  - apply is_upper_capital in Ua. apply is_upper_not_capital in Ub. split.
    + intros <-. right. left. split; [exact Ua|].
      unfold capital in Ua. rewrite nat_ascii_embedding by lia. reflexivity.
    + intros [-> | [[_ H] | [H _]]]; [contradiction | | contradiction].
      rewrite <- H. apply ascii_nat_embedding.
  - apply is_upper_capital in Ub. apply is_upper_not_capital in Ua. split.
    + intros ->. right. right. split; [exact Ub|].
      unfold capital in Ub. rewrite nat_ascii_embedding by lia. reflexivity.
    + intros [-> | [[H _] | [_ H]]]; [contradiction | contradiction |].
      rewrite <- H. symmetry. apply ascii_nat_embedding.
  - apply is_upper_not_capital in Ua, Ub. split; [now left|].
    intros [-> | [[H _] | [H _]]]; [reflexivity | contradiction | contradiction].
Qed.

Lemma toLowerCase_same a : forall b,
  toLowerCase a = toLowerCase b <-> same_letters a b.
Proof.
  induction a as [|x a IH]; intros [|y b]; cbn [toLowerCase]; split;
    try discriminate; try (intros H; inversion H; fail).
  - constructor.
  - reflexivity.
  - intros [= H1 H2]. constructor; [now apply lower_unit_same | now apply IH].
  - intros H. inversion H; subst. f_equal; [now apply lower_unit_same | now apply IH].
Qed.

Lemma trimStart_margin l : margin l -> forall s, trimStart (l ++ s) = trimStart s.
Proof.
  induction 1 as [|c r Hc _ IH]; intros s; [reflexivity|].
  cbn [append trimStart]. apply is_ws_white in Hc. now rewrite Hc.
Qed.

Lemma trimStart_split s :
  exists l, margin l /\ s = (l ++ trimStart s)%string.
Proof.
  induction s as [|c s (l & Hl & IH)]; [exists EmptyString; split; [constructor | reflexivity]|].
  cbn [trimStart]. destruct (is_ws c) eqn:W.
  - exists (String c l). split; [constructor; [now apply is_ws_white | exact Hl]|].
    cbn [append]. now rewrite <- IH.
  - exists EmptyString. split; [constructor | reflexivity].
Qed.

Lemma trimStart_first s c r : trimStart s = String c r -> ~ white c.
Proof.
  induction s as [|x s IH]; cbn [trimStart]; [discriminate|].
  destruct (is_ws x) eqn:W; [exact IH|].
  intros [= <- _]. now apply is_ws_not_white.
Qed.

Lemma trimEnd_margin r : margin r -> trimEnd r = EmptyString.
Proof.
  induction 1 as [|c r Hc _ IH]; [reflexivity|].
  cbn [trimEnd]. rewrite IH. apply is_ws_white in Hc. now rewrite Hc.
Qed.

Lemma trimEnd_app_margin r : margin r -> forall s, trimEnd (s ++ r) = trimEnd s.
Proof.
  intros Hr s. induction s as [|c s IH]; cbn [append trimEnd].
  - now apply trimEnd_margin.
  - now rewrite IH.
Qed.

Lemma trimEnd_split s :
  exists r, margin r /\ s = (trimEnd s ++ r)%string.
Proof.
  induction s as [|c s (r & Hr & IH)]; [exists EmptyString; split; [constructor | reflexivity]|].
  cbn [trimEnd]. destruct (trimEnd s) as [|y t] eqn:T.
  - cbn [append] in IH. subst s. destruct (is_ws c) eqn:W.
    + exists (String c r). split; [constructor; [now apply is_ws_white | exact Hr] | reflexivity].
    + exists r. split; [exact Hr | reflexivity].
  - exists r. split; [exact Hr|]. cbn [append] in *. f_equal. exact IH.
Qed.

Lemma trimEnd_last s r c : trimEnd s = (r ++ String c EmptyString)%string -> ~ white c.
Proof.
  revert r. induction s as [|x s IH]; intros r; cbn [trimEnd].
  - destruct r; discriminate.
  - destruct (trimEnd s) as [|y t] eqn:T.
    + destruct (is_ws x) eqn:W; [destruct r; discriminate|].
      destruct r as [|z r]; cbn [append].
      * intros [= <-]. now apply is_ws_not_white.
      * intros [= _ H]. destruct r; discriminate.
    + destruct r as [|z r]; cbn [append].
      * discriminate.
      * intros [= _ H]. eapply IH. exact H.
Qed.

Lemma trimEnd_first c r : ~ white c -> exists r', trimEnd (String c r) = String c r'.
Proof.
  intros H. cbn [trimEnd]. apply is_ws_not_white in H. rewrite H.
  destruct (trimEnd r); eexists; reflexivity.
Qed.

Lemma trimEnd_bare s :
  (forall r c, s = (r ++ String c EmptyString)%string -> ~ white c) -> trimEnd s = s.
Proof.
  induction s as [|x s IH]; intros H; [reflexivity|].
  cbn [trimEnd]. destruct s as [|y s].
  - cbn [trimEnd]. specialize (H EmptyString x eq_refl). apply is_ws_not_white in H.
    now rewrite H.
  - rewrite IH.
    + reflexivity.
    + intros r c E. apply (H (String x r) c). cbn [append]. now rewrite <- E.
Qed.

Lemma trim_core s : core_of s (trim s).
Proof.
  unfold core_of, bare, trim. split; [split|].
  - intros c r E. destruct (trimStart s) as [|x t] eqn:T; [discriminate|].
    pose proof (trimStart_first s x t T) as Hx.
    destruct (trimEnd_first x t Hx) as [r' E']. rewrite E' in E.
    injection E as <- _. exact Hx.
  - intros r c E. eapply trimEnd_last. exact E.
  - destruct (trimStart_split s) as (l & Hl & El).
    destruct (trimEnd_split (trimStart s)) as (r & Hr & Er).
    exists l, r. split; [exact Hl | split; [exact Hr|]].
    now rewrite <- Er.
Qed.

Lemma core_is_trim s core : core_of s core -> core = trim s.
Proof.
  intros [[Hfirst Hlast] (l & r & Hl & Hr & ->)]. unfold trim.
  rewrite trimStart_margin by exact Hl.
  destruct core as [|c t].
  - cbn [append]. destruct (trimStart_split r) as (l' & _ & E).
    assert (M : trimStart r = EmptyString).
    { clear E. induction Hr as [|x r Hx _ IH]; [reflexivity|].
      cbn [trimStart]. apply is_ws_white in Hx. now rewrite Hx. }
    now rewrite M.
  - cbn [append trimStart].
    specialize (Hfirst c t eq_refl). apply is_ws_not_white in Hfirst. rewrite Hfirst.
    change (String c (t ++ r)) with (String c t ++ r)%string.
    rewrite trimEnd_app_margin by exact Hr.
    symmetry. now apply trimEnd_bare.
Qed.

(** Trimming and folding as the code does it is equality of texts but
    for white space at the ends and the case of letters. *)
Lemma normalize_same a b : normalize a = normalize b <-> same_text a b.
Proof.
  unfold normalize, same_text. split.
  - intros H. exists (trim a), (trim b).
    split; [apply trim_core | split; [apply trim_core | now apply toLowerCase_same]].
  - intros (ca & cb & Ha & Hb & H).
    apply core_is_trim in Ha, Hb. subst. now apply toLowerCase_same.
Qed.

(** *** The option matcher *)

Lemma text_is_iff s o : text_is (normalize s) o = true <-> matches_text s o.
Proof.
  unfold text_is, matches_text. rewrite String.eqb_eq. apply normalize_same.
Qed.

Lemma text_is_false s o : text_is (normalize s) o = false <-> ~ matches_text s o.
Proof.
  rewrite <- text_is_iff. destruct (text_is (normalize s) o); split; congruence.
Qed.

Lemma find_some_first s options o :
  find (text_is (normalize s)) options = Some o -> first_matching s options o.
Proof.
  induction options as [|x l IH]; simpl; [discriminate|].
  destruct (text_is (normalize s) x) eqn:E.
  - intros [= <-]. exists [], l. repeat split.
    + now apply text_is_iff.
    + intros y [].
  - intros H. destruct (IH H) as (pre & post & -> & Ho & Hpre).
    exists (x :: pre), post. repeat split; trivial.
    intros y [<- | Hy]; [now apply text_is_false | auto].
Qed.

Lemma find_none_all s options :
  find (text_is (normalize s)) options = None -> none_matching s options.
Proof.
  intros H x Hx. apply text_is_false.
  exact (find_none _ _ H x Hx).
Qed.

Lemma alias_loop_some options aliases o :
  alias_loop options aliases = Some o ->
  exists earlier alias later,
    aliases = earlier ++ alias :: later /\
    (forall a, In a earlier -> none_matching a options) /\
    first_matching alias options o.
Proof.
  induction aliases as [|a l IH]; simpl; [discriminate|].
  destruct (find (text_is (normalize a)) options) as [m|] eqn:E.
  - intros [= <-]. exists [], a, l. repeat split.
    + intros b [].
    + now apply find_some_first.
  - intros H. destruct (IH H) as (earlier & alias & later & -> & Hearly & Hfirst).
    exists (a :: earlier), alias, later. repeat split; trivial.
    intros b [<- | Hb]; [now apply find_none_all | auto].
Qed.

Lemma alias_loop_none options aliases :
  alias_loop options aliases = None ->
  forall a, In a aliases -> none_matching a options.
Proof.
  induction aliases as [|a l IH]; simpl; [intros _ b []|].
  destruct (find (text_is (normalize a)) options) eqn:E; [discriminate|].
  intros H b [<- | Hb]; [now apply find_none_all | auto].
Qed.

(** C1.  For every list of options, primary label and alias list,
    [findMatchingOption] returns the first option, in list order, whose
    trimmed and case-folded text equals that of the primary label; when
    no option matches the label, the first option matching the first
    alias, in alias order, that matches any option; and null when neither
    the label nor an alias matches. *)
Theorem findMatchingOption_contract options label aliases :
  matcher_contract options label aliases (findMatchingOption options label aliases).
Proof.
  unfold findMatchingOption.
  destruct (find (text_is (normalize label)) options) as [m|] eqn:E.
  - apply by_label. now apply find_some_first.
  - pose proof (find_none_all _ _ E) as Hnone.
    destruct (alias_loop options aliases) as [m|] eqn:A.
    + destruct (alias_loop_some _ _ _ A) as (earlier & alias & later & Heq & Hearly & Hfirst).
      eapply by_alias; eauto.
    + apply no_match; [assumption | now apply alias_loop_none].
Qed.

(** The contract leaves no choice: it names one result. *)
Lemma first_split_unique {A} (P : A -> Prop) (pre pre' : list A) :
  forall x x' post post',
    pre ++ x :: post = pre' ++ x' :: post' ->
    P x -> P x' ->
    (forall y, In y pre -> ~ P y) -> (forall y, In y pre' -> ~ P y) ->
    pre = pre' /\ x = x' /\ post = post'.
Proof.
  revert pre'. induction pre as [|a pre IH]; intros [|a' pre'] x x' post post' E Px Px' H H';
    simpl in E; injection E as E1 E2.
  - now subst.
  - exfalso. apply (H' a'); [now left | now rewrite <- E1].
  - exfalso. apply (H a); [now left | now rewrite E1].
  - subst a'. destruct (IH pre' x x' post post' E2 Px Px') as (-> & -> & ->).
    + intros y Hy. apply H. now right.
    + intros y Hy. apply H'. now right.
    + repeat split.
Qed.

Lemma first_matching_unique s options o o' :
  first_matching s options o -> first_matching s options o' -> o = o'.
Proof.
  intros (pre & post & -> & Ho & Hpre) (pre' & post' & E & Ho' & Hpre').
  now destruct (first_split_unique (matches_text s) pre pre' o o' post post' E Ho Ho' Hpre Hpre')
    as (_ & -> & _).
Qed.

Lemma first_matching_some s options o :
  first_matching s options o -> ~ none_matching s options.
Proof.
  intros (pre & post & -> & Ho & _) H. apply (H o); [|assumption].
  apply in_or_app. right. now left.
Qed.

Lemma matcher_contract_functional options label aliases r r' :
  matcher_contract options label aliases r ->
  matcher_contract options label aliases r' -> r = r'.
Proof.
  intros [o Ho | earlier alias later o Hn -> Hearly Ho | Hn Hall]
         C'; inversion C' as [o' Ho' | earlier' alias' later' o' Hn' E Hearly' Ho' | Hn' Hall'];
    subst; try reflexivity.
  - f_equal. eapply first_matching_unique; eauto.
  - now apply first_matching_some in Ho.
  - now apply first_matching_some in Ho.
  - now apply first_matching_some in Ho'.
  - destruct (first_split_unique (fun a => ~ none_matching a options)
                earlier earlier' alias alias' later later' E) as (_ & <- & _).
    + eapply first_matching_some; eauto.
    + eapply first_matching_some; eauto.
    + intros y Hy Hc. apply Hc. now apply Hearly.
    + intros y Hy Hc. apply Hc. now apply Hearly'.
    + f_equal. eapply first_matching_unique; eauto.
  - apply first_matching_some in Ho. exfalso. apply Ho. apply Hall'.
    apply in_or_app. right. now left.
  - now apply first_matching_some in Ho'.
  - apply first_matching_some in Ho'. exfalso. apply Ho'. apply Hall.
    apply in_or_app. right. now left.
Qed.

(** On the options of the sample page: the label wins over an alias, an
    alias is used when the label matches nothing, and the order of the
    aliases decides. *)
Example matcher_on_sample_options :
  let yes := plain 5 "li" [("role", "option")] "  Yes " in
  let no := plain 10 "li" [("role", "option")] "No" in
  findMatchingOption [yes; no] "YES" ["no"] = Some yes
  /\ findMatchingOption [yes; no] "Nope" ["nay"; " NO "; "yes"] = Some no
  /\ findMatchingOption [yes; no] "Maybe" ["perhaps"] = None.
Proof. repeat split; reflexivity. Qed.

(** Unfolds the primitives of a run down to worlds. *)
Ltac run_steps :=
  unfold bind, ret, focus, click, assign_value, native_set_value, dispatchEvent,
    sleep, console_log, console_warn, emit, query, queryAll, lift_query;
  simpl.

(** *** Queries *)

Lemma filter_map_fst {A B} (f : A -> bool) (l : list (A * B)) :
  map fst (filter (fun en => f (fst en)) l) = filter f (map fst l).
Proof.
  induction l as [|x l IH]; simpl; [reflexivity|].
  destruct (f (fst x)); simpl; now rewrite IH.
Qed.

(** A selector of the fragment selects what its reading matches. *)
Lemma querySelectorAll_parsed host sel s c d :
  Selector.parse sel = Some s ->
  querySelectorAll host sel c d
  = inr (map fst (filter (fun en => in_scope c en && Selector.matches s en)
                         (entries d))).
Proof. intros H. unfold querySelectorAll, selects. now rewrite H. Qed.

(** The attributes the script tests are compared with their case. *)
Ltac exact_values :=
  unfold Selector.same_value, Selector.prefix_value;
  repeat match goal with
         | |- context [Selector.value_insensitive ?n] =>
             change (Selector.value_insensitive n) with false
         end;
  cbv iota.

Lemma querySelectorAll_listbox host d :
  querySelectorAll host listbox_selector TheDocument d = inr (listboxes d).
Proof.
  rewrite (querySelectorAll_parsed host listbox_selector
             [Selector.mkCompound None [Selector.AttrEq "role" "listbox"]])
    by reflexivity.
  unfold listboxes, elements.
  rewrite <- filter_map_fst. do 2 apply f_equal.
  apply filter_ext. intros [e anc].
  unfold Selector.matches, Selector.matches_compound, is_listbox.
  cbn [rev app fst snd Selector.c_tag Selector.c_attrs forallb Selector.test_attr
       Selector.matches_ancestors in_scope].
  change (toLowerCase "role") with "role". exact_values.
  destruct (getAttribute e "role"); simpl; [|reflexivity].
  now rewrite !andb_true_r.
Qed.

Lemma querySelectorAll_input_named host name d :
  Selector.parse (name_selector name)
  = Some [Selector.mkCompound (Some "input") [Selector.AttrEq "name" name]] ->
  querySelectorAll host (name_selector name) TheDocument d = inr (inputs_named name d).
Proof.
  intros Hp. rewrite (querySelectorAll_parsed host _ _ TheDocument d Hp).
  unfold inputs_named, elements.
  rewrite <- filter_map_fst. do 2 apply f_equal.
  apply filter_ext. intros [e anc].
  unfold Selector.matches, Selector.matches_compound, is_input_named.
  cbn [rev app fst snd Selector.c_tag Selector.c_attrs forallb Selector.test_attr
       Selector.matches_ancestors in_scope].
  change (toLowerCase "name") with "name". change (toLowerCase "input") with "input".
  exact_values. rewrite String.eqb_sym.
  destruct (getAttribute e "name"); simpl; now rewrite ?andb_true_r.
Qed.

Lemma nth_error_last {A} (l : list A) (x : A) :
  nth_error (l ++ [x]) (length (l ++ [x]) - 1) = Some x.
Proof.
  rewrite length_app; simpl.
  replace (length l + 1 - 1)%nat with (length l) by lia.
  rewrite nth_error_app2 by lia. now rewrite Nat.sub_diag.
Qed.

(** *** The active surface locator *)

(** C5.  For every document state, [getActiveDropdownContainer] returns
    null when the document has no element with [role="listbox"], and
    otherwise exactly the last such element in document order; it changes
    nothing. *)
Theorem getActiveDropdownContainer_last (host : Host) (w : World) :
  exists r, getActiveDropdownContainer host w = (Normal r, w)
            /\ locator_contract (doc w) r.
Proof.
  unfold getActiveDropdownContainer, bind, queryAll, lift_query.
  rewrite querySelectorAll_listbox.
  assert (C : listboxes (doc w) = [] \/
              exists before y, listboxes (doc w) = before ++ [y]).
  { destruct (listboxes (doc w)) as [|x l]; [now left | right].
    destruct (exists_last (l := x :: l)) as (b & y & H); [discriminate|].
    now exists b, y. }
  destruct C as [E | (before & y & E)]; rewrite E.
  - exists None. split; [reflexivity | now apply no_surface].
  - exists (Some y).
    destruct (length (before ++ [y]) =? 0)%nat eqn:L.
    + apply Nat.eqb_eq in L. rewrite length_app in L; simpl in L; lia.
    + unfold ret. rewrite nth_error_last. split; [reflexivity|].
      now apply last_surface with before.
Qed.

(** *** Documents under [set_value] *)

Lemma flatten_update f n :
  forall anc,
    flatten (map f anc) (update_node f n)
    = map (fun en => (f (fst en), map f (snd en))) (flatten anc n).
Proof.
  induction n as [e kids IH] using Node_forall_ind. intros anc. simpl. f_equal.
  change (f e :: map f anc) with (map f (e :: anc)).
  generalize (e :: anc) as up.
  induction IH as [|k r Hk _ IHr]; intros up; simpl; [reflexivity|].
  now rewrite map_app, Hk, IHr.
Qed.

Lemma elements_update f d :
  elements (update_doc f d) = map f (elements d).
Proof.
  unfold elements, entries, update_doc.
  induction d as [|n d IH]; simpl; [reflexivity|].
  rewrite !map_app, IH. f_equal.
  change (@nil Element) with (map f []) at 1.
  rewrite flatten_update, !map_map. reflexivity.
Qed.

(** Assigning a value changes the element assigned to and no other. *)
Lemma elements_set_value i v d :
  elements (set_value i v d) = map (with_value i v) (elements d).
Proof. apply elements_update. Qed.

Lemma added_app w w' t : trace w' = trace w ++ t -> added w w' = t.
Proof.
  unfold added. intros ->. rewrite skipn_app, Nat.sub_diag, skipn_all. reflexivity.
Qed.

(** *** Filling an input by name *)

Lemma scan_value p n name : forall acc done cur rest,
  plain_name name = true ->
  Selector.scan (Selector.PValue p n acc) done cur
                (name ++ String (ascii_of_nat 34) rest)%string
  = Selector.scan Selector.PClose done
      (Selector.mkCompound (Selector.c_tag cur)
         (Selector.mk_test p n (acc ++ name)%string :: Selector.c_attrs cur)) rest.
Proof.
  induction name as [|c r IH]; intros acc done cur rest H.
  - cbn. now rewrite append_nil_r.
  - cbn [plain_name] in H. apply andb_true_iff in H. destruct H as [Hc Hr].
    unfold plain_char in Hc. apply andb_true_iff in Hc. destruct Hc as [Hq Hb].
    apply negb_true_iff in Hq, Hb.
    cbn [append Selector.scan]. rewrite Hq, Hb. rewrite IH by exact Hr.
    unfold Selector.snoc. now rewrite append_assoc.
Qed.

(** For such a name the template selects the inputs of that name. *)
Lemma name_selector_parses name :
  plain_name name = true ->
  Selector.parse (name_selector name)
  = Some [Selector.mkCompound (Some "input") [Selector.AttrEq "name" name]].
Proof.
  intros H. unfold Selector.parse, name_selector, quoted, dquote.
  cbn [append]. rewrite append_assoc. cbn [append].
  cbn. rewrite scan_value by exact H. reflexivity.
Qed.

Lemma query_named host name d :
  plain_name name = true ->
  querySelector host (name_selector name) TheDocument d
  = inr (hd_error (inputs_named name d)).
Proof.
  intros H. unfold querySelector.
  now rewrite (querySelectorAll_input_named host name d (name_selector_parses name H)).
Qed.

Lemma query_email host d :
  querySelector host (name_selector "email") TheDocument d
  = inr (hd_error (inputs_named "email" d)).
Proof. now apply query_named. Qed.

(** Filling by any plain name, in the latest revision and the earliest,
    when the input found keeps the string assigned to it. *)
Lemma fillInputByName_fills (host : Host) (name value : string) (w : World) :
  plain_name name = true ->
  (forall el rest, inputs_named name (doc w) = el :: rest ->
                   stores host (eid el) value) ->
  let input := bubbling PlainEvent "input" in
  let change := bubbling PlainEvent "change" in
  match inputs_named name (doc w) with
  | el :: _ =>
      let i := eid el in
      let typed := on_event host i input
                     (set_value i value (on_focus host i (doc w))) in
      fillInputByName host name value TheDocument w
      = (Normal tt,
         mkWorld (on_event host i change typed) (now w)
                 (trace w ++ [Focus i; SetValue i value;
                              Dispatch i input; Dispatch i change]))
      /\ Legacy.fillInputByName host name value w
         = (Normal tt,
            mkWorld typed (now w)
                    (trace w ++ [Focus i; SetValue i value; Dispatch i input]))
  | [] =>
      let warned := emit (ConsoleWarn [LStr "Input not found:";
                                       LStr (name_selector name)]) w in
      fillInputByName host name value TheDocument w = (Normal tt, warned)
      /\ Legacy.fillInputByName host name value w = (Normal tt, warned)
  end.
Proof.
  intros H Hs.
  unfold fillInputByName, fillInputBySelector, Legacy.fillInputByName,
    Legacy.fillInputBySelector, bind, query, lift_query.
  rewrite (query_named host name (doc w) H).
  destruct (inputs_named name (doc w)) as [|el rest].
  - split; reflexivity.
  - specialize (Hs el rest eq_refl).
    unfold focus, assign_value, dispatchEvent. cbn [hd_error doc now trace].
    rewrite Hs. cbn [doc now trace]. rewrite <- ?app_assoc. split; reflexivity.
Qed.

(** C6, as amended.  On a document with an input named email that keeps
    the string assigned to it, [fillInputByName("email", "a@b.com")]
    focuses the first such input, assigns the value to it, which is its
    value from then on, and dispatches exactly one [input] event on it,
    followed by exactly one [change] event in every revision but the
    earliest, which dispatches the [input] event only.  On a document
    without such an input every revision logs the not-found warning,
    leaves the document alone and dispatches nothing. *)
Theorem fillInputByName_email (host : Host) (w : World) :
  (forall el rest, inputs_named "email" (doc w) = el :: rest ->
                   stores host (eid el) "a@b.com") ->
  let input := bubbling PlainEvent "input" in
  let change := bubbling PlainEvent "change" in
  match inputs_named "email" (doc w) with
  | el :: _ =>
      let i := eid el in
      let typed := on_event host i input
                     (set_value i "a@b.com" (on_focus host i (doc w))) in
      fillInputByName host "email" "a@b.com" TheDocument w
      = (Normal tt,
         mkWorld (on_event host i change typed) (now w)
                 (trace w ++ [Focus i; SetValue i "a@b.com";
                              Dispatch i input; Dispatch i change]))
      /\ Legacy.fillInputByName host "email" "a@b.com" w
         = (Normal tt,
            mkWorld typed (now w)
                    (trace w ++ [Focus i; SetValue i "a@b.com"; Dispatch i input]))
  | [] =>
      let warned := emit (ConsoleWarn [LStr "Input not found:";
                                       LStr (name_selector "email")]) w in
      fillInputByName host "email" "a@b.com" TheDocument w = (Normal tt, warned)
      /\ Legacy.fillInputByName host "email" "a@b.com" w = (Normal tt, warned)
  end.
Proof.
  intros Hs.
  unfold fillInputByName, fillInputBySelector, Legacy.fillInputByName,
    Legacy.fillInputBySelector, bind, query, lift_query.
  rewrite query_email.
  destruct (inputs_named "email" (doc w)) as [|el rest].
  - split; reflexivity.
  - specialize (Hs el rest eq_refl).
    unfold focus, assign_value, dispatchEvent. cbn [hd_error doc now trace].
    rewrite Hs. cbn [doc now trace]. rewrite <- ?app_assoc. split; reflexivity.
Qed.

(** A text field keeps a string without line breaks as it is. *)
Lemma strip_newlines_plain v :
  forallb (fun c => negb ((nat_of_ascii c =? 10) || (nat_of_ascii c =? 13))%nat)
          (list_ascii_of_string v) = true ->
  strip_newlines v = v.
Proof.
  induction v as [|c v IH]; cbn [list_ascii_of_string forallb strip_newlines];
    [reflexivity|].
  intros H. apply andb_true_iff in H. destruct H as [Hc Hv].
  apply negb_true_iff in Hc. rewrite Hc. now rewrite IH.
Qed.

Lemma inert_stores i v :
  forallb (fun c => negb ((nat_of_ascii c =? 10) || (nat_of_ascii c =? 13))%nat)
          (list_ascii_of_string v) = true ->
  stores inert i v.
Proof.
  intros H d. cbn [on_assign inert]. unfold text_field.
  now rewrite (strip_newlines_plain v H).
Qed.

(** With a page of text fields that does not react, the run changes the
    value of the input and nothing else in the document, and its trace
    holds one [input] and one [change] event, both on the input. *)
Lemma fillInputByName_email_inert (w : World) el rest :
  inputs_named "email" (doc w) = el :: rest ->
  let w' := snd (fillInputByName inert "email" "a@b.com" TheDocument w) in
  elements (doc w') = map (with_value (eid el) "a@b.com") (elements (doc w))
  /\ dispatched "input" (added w w') = 1
  /\ dispatched_on "input" (eid el) (added w w') = 1
  /\ dispatched "change" (added w w') = 1
  /\ dispatched_on "change" (eid el) (added w w') = 1.
Proof.
  intros H.
  unfold fillInputByName, fillInputBySelector, bind, query, lift_query.
  rewrite query_email, H. run_steps.
  split; [apply elements_set_value|].
  erewrite added_app by (simpl; rewrite <- !app_assoc; reflexivity).
  unfold dispatched, dispatched_on. simpl.
  rewrite Nat.eqb_refl. simpl. repeat split; reflexivity.
Qed.

(** Two inputs named email on which the run falls short of what is
    asked.  In the earliest revision, on the sample page, the run
    dispatches no [change] event at all.  In the latest revision, a date
    input named email, which stores the empty string when handed a
    string that is no date, gets both events and does not get the
    value. *)
Lemma email_fill_falls_short :
  let early := snd (Legacy.fillInputByName inert "email" "a@b.com" sample_world) in
  let dated := snd (fillInputByName picky "email" "a@b.com" TheDocument date_world) in
  (inputs_named "email" sample_page = [plain 3 "input" [("name", "email")] EmptyString]
   /\ dispatched "input" (trace early) = 1
   /\ dispatched "change" (trace early) = 0
   /\ dispatched "change" (trace early) <> 1)
  /\ (inputs_named "email" date_page
      = [plain 3 "input" [("type", "date"); ("name", "email")] EmptyString]
      /\ dispatched_on "input" 3 (trace dated) = 1
      /\ dispatched_on "change" 3 (trace dated) = 1
      /\ value_of 3 (doc dated) = Some EmptyString
      /\ value_of 3 (doc dated) <> Some "a@b.com").
Proof.
  cbv zeta. split.
  - repeat split; try reflexivity. vm_compute. discriminate.
  - repeat split; try reflexivity. vm_compute. discriminate.
Qed.

(** *** The checkbox setters *)

(** C7.  When the checkbox found has the requested checked state,
    [setCheckboxBySelector], and [setCheckboxByName] through it, returns
    with the world as it was: no click, no change of state.  A click is
    in what a run adds to the trace only if the element found has a
    checked state different from the requested one. *)
Theorem setCheckbox_no_click_when_equal (host : Host) (wanted : bool)
        (container : Container) (w : World) :
  (forall selector el,
      querySelector host selector container (doc w) = inr (Some el) ->
      checked el = wanted ->
      setCheckboxBySelector host selector wanted container w = (Normal tt, w))
  /\ (forall name el,
         querySelector host (name_selector name) container (doc w) = inr (Some el) ->
         checked el = wanted ->
         setCheckboxByName host name wanted container w = (Normal tt, w))
  /\ (forall selector i,
         In (Click i)
            (added w (snd (setCheckboxBySelector host selector wanted container w))) ->
         exists el,
           querySelector host selector container (doc w) = inr (Some el)
           /\ eid el = i /\ checked el <> wanted).
Proof.
  assert (A : forall selector el,
             querySelector host selector container (doc w) = inr (Some el) ->
             checked el = wanted ->
             setCheckboxBySelector host selector wanted container w = (Normal tt, w)).
  { intros selector el Hq Hc. unfold setCheckboxBySelector. run_steps.
    rewrite Hq, Hc, eqb_reflx. reflexivity. }
  split; [exact A | split].
  - intros name el. apply A.
  - intros selector i. unfold setCheckboxBySelector. run_steps.
    destruct (querySelector host selector container (doc w)) as [e | [el|]] eqn:Hq; simpl.
    + unfold added. simpl. rewrite skipn_all. intros [].
    + destruct (Bool.eqb (checked el) wanted) eqn:Hc; simpl.
      * unfold added. simpl. rewrite skipn_all. intros [].
      * erewrite added_app by (simpl; rewrite <- app_assoc; reflexivity).
        intros [[= <-] | [[=] | []]].
        exists el. repeat split. intros Heq. apply eqb_false_iff in Hc. contradiction.
    + erewrite added_app by reflexivity. intros [[=] | []].
Qed.

(** The revision of utils.js searches the document; it is the function
    above at that container. *)
Lemma UtilsJs_setCheckboxBySelector host selector wanted w :
  UtilsJs.setCheckboxBySelector host selector wanted w
  = setCheckboxBySelector host selector wanted TheDocument w.
Proof. reflexivity. Qed.

(** *** The date setter *)

(** C9.  Called with a null or undefined element, [dateSetValue] returns
    with the world as it was: nothing mutated, nothing dispatched,
    nothing thrown.  So it does when the element is there and no native
    setter of [value] can be obtained. *)
Theorem dateSetValue_guards (host : Host) (value : string) (w : World) :
  dateSetValue host None value w = (Normal tt, w)
  /\ (forall el, nativeSetter host = false ->
                 dateSetValue host (Some el) value w = (Normal tt, w)).
Proof.
  split; [reflexivity|]. intros el H. unfold dateSetValue. now rewrite H.
Qed.

(** *** The name-based entry points *)

Lemma name_selector_derived name : name_selector name = derived_selector name.
Proof.
  unfold name_selector, derived_selector, quoted.
  now rewrite !append_assoc.
Qed.

(** C10.  For every name, value, state and container, [fillInputByName]
    is [fillInputBySelector] at the selector [input[name="<name>"]], and
    [setCheckboxByName] is [setCheckboxBySelector] at that selector: the
    same completion and the same world from every world. *)
Theorem name_entry_points_are_wrappers (host : Host) (name value : string)
        (wanted : bool) (container : Container) (w : World) :
  fillInputByName host name value container w
  = fillInputBySelector host (derived_selector name) value container w
  /\ setCheckboxByName host name wanted container w
     = setCheckboxBySelector host (derived_selector name) wanted container w.
Proof.
  unfold fillInputByName, setCheckboxByName.
  rewrite name_selector_derived. split; reflexivity.
Qed.

(** The older revisions wrap in the same way. *)
Lemma older_name_entry_points_are_wrappers host name value wanted w :
  Legacy.fillInputByName host name value w
  = Legacy.fillInputBySelector host (derived_selector name) value w
  /\ UtilsJs.setCheckboxByName host name wanted w
     = UtilsJs.setCheckboxBySelector host (derived_selector name) wanted w.
Proof.
  unfold Legacy.fillInputByName, UtilsJs.setCheckboxByName.
  rewrite name_selector_derived. split; reflexivity.
Qed.

(** *** The chip reader *)

Lemma existsb_pointwise {A} (f g : A -> bool) (l : list A) :
  (forall x, f x = g x) -> existsb f l = existsb g l.
Proof. intros H. induction l as [|x l IH]; simpl; [reflexivity | now rewrite H, IH]. Qed.

Lemma matches_one_ancestor c anc :
  Selector.matches_ancestors [c] anc = existsb (Selector.matches_compound c) anc.
Proof.
  induction anc as [|a anc IH]; simpl; [reflexivity|].
  destruct (Selector.matches_compound c a); simpl; [reflexivity | exact IH].
Qed.

Lemma pills_selector_parses :
  Selector.parse pills_selector
  = Some [Selector.mkCompound None [Selector.AttrPrefix "id" "pill-";
                                    Selector.AttrEq "data-automation-id" "selectedItem"];
          Selector.mkCompound (Some "p")
                              [Selector.AttrEq "data-automation-id" "promptOption"]].
Proof. reflexivity. Qed.

Lemma querySelectorAll_pills host container d :
  querySelectorAll host pills_selector container d = inr (chip_labels container d).
Proof.
  rewrite (querySelectorAll_parsed host _ _ container d pills_selector_parses).
  unfold chip_labels. do 2 f_equal.
  apply filter_ext. intros [e anc]. f_equal.
  unfold Selector.matches. cbn [rev app].
  rewrite matches_one_ancestor. unfold is_chip_label. cbn [fst snd].
  f_equal.
  - unfold Selector.matches_compound, attr_is.
    cbn [Selector.c_tag Selector.c_attrs forallb Selector.test_attr].
    change (toLowerCase "data-automation-id") with "data-automation-id".
    change (toLowerCase "p") with "p". exact_values.
    rewrite String.eqb_sym. destruct (getAttribute e "data-automation-id"); simpl;
      now rewrite ?andb_true_r.
  - apply existsb_pointwise. intros a.
    unfold Selector.matches_compound, is_pill, attr_is.
    cbn [Selector.c_tag Selector.c_attrs forallb Selector.test_attr].
    change (toLowerCase "data-automation-id") with "data-automation-id".
    change (toLowerCase "id") with "id". exact_values.
    destruct (getAttribute a "id"); simpl; [|reflexivity].
    destruct (getAttribute a "data-automation-id"); simpl; now rewrite ?andb_true_r.
Qed.

(** Reading the chips never fails and changes nothing. *)
Lemma getCurrentPills_reads host container w :
  getCurrentPills host container w = (Normal (chips container (doc w)), w).
Proof.
  unfold getCurrentPills, bind, queryAll, lift_query.
  now rewrite querySelectorAll_pills.
Qed.

Lemma includes_In l x : includes l x = true <-> In x l.
Proof.
  unfold includes. rewrite existsb_exists. split.
  - intros (y & Hy & E). apply String.eqb_eq in E. now subst.
  - intros H. exists x. split; [assumption | apply String.eqb_refl].
Qed.

(** The test of the loop finds the candidate among the chips exactly when
    the candidate is shown as a chip: trimmed on the side of the chip,
    as it is on the side of the candidate. *)
Lemma accepted_shown container d candidate :
  accepted container candidate d = true <-> shown_as_chip container d candidate.
Proof.
  unfold accepted, shown_as_chip. rewrite includes_In. unfold chips.
  fold (chip_labels container d). rewrite in_map_iff. split.
  - intros (p & E & Hp). exists p, (trim (textContent p)).
    split; [exact Hp | split; [apply trim_core | now apply toLowerCase_same]].
  - intros (p & core & Hp & Hc & Hs). exists p. split; [|exact Hp].
    apply core_is_trim in Hc. subst core. now apply toLowerCase_same.
Qed.

(** Trimming, lower case and the lengths of texts. *)

Lemma lower_unit_ws c : is_ws (lower_unit c) = is_ws c.
Proof. destruct c as [[] [] [] [] [] [] [] []]; reflexivity. Qed.

Lemma toLowerCase_length s : String.length (toLowerCase s) = String.length s.
Proof. induction s as [|c r IH]; simpl; [reflexivity | now rewrite IH]. Qed.

Lemma trimStart_lower s : trimStart (toLowerCase s) = toLowerCase (trimStart s).
Proof.
  induction s as [|c r IH]; simpl; [reflexivity|].
  rewrite lower_unit_ws. destruct (is_ws c); [exact IH | reflexivity].
Qed.

Lemma trimEnd_lower s : trimEnd (toLowerCase s) = toLowerCase (trimEnd s).
Proof.
  induction s as [|c r IH]; simpl; [reflexivity|].
  rewrite IH, lower_unit_ws.
  destruct (trimEnd r); simpl; [destruct (is_ws c)|]; reflexivity.
Qed.

Lemma trim_lower s : trim (toLowerCase s) = toLowerCase (trim s).
Proof. unfold trim. now rewrite trimStart_lower, trimEnd_lower. Qed.

Lemma trimEnd_idem s : trimEnd (trimEnd s) = trimEnd s.
Proof.
  induction s as [|c r IH]; simpl; [reflexivity|].
  destruct (trimEnd r) as [|c' r'] eqn:E.
  - destruct (is_ws c) eqn:W; simpl; [reflexivity | now rewrite W].
  - change (trimEnd (String c (String c' r')))
      with (match trimEnd (String c' r') with
            | EmptyString => if is_ws c then EmptyString else String c EmptyString
            | x => String c x
            end).
    now rewrite IH.
Qed.

(** Trimming the end keeps a first unit that is no white space. *)
Lemma trimEnd_head c r :
  is_ws c = false -> trimEnd (String c r) = String c (trimEnd r).
Proof. intros W. simpl. destruct (trimEnd r); [now rewrite W | reflexivity]. Qed.

Lemma trimStart_head s :
  trimStart s = EmptyString
  \/ exists c r, trimStart s = String c r /\ is_ws c = false.
Proof.
  induction s as [|c r IH]; simpl; [now left|].
  destruct (is_ws c) eqn:W; [exact IH | right; now exists c, r].
Qed.

Lemma trim_idem s : trim (trim s) = trim s.
Proof.
  unfold trim. destruct (trimStart_head s) as [-> | (c & r & -> & W)]; [reflexivity|].
  rewrite trimEnd_head by exact W. simpl. rewrite W.
  rewrite trimEnd_head by exact W. now rewrite trimEnd_idem.
Qed.

Lemma trimStart_length s : String.length (trimStart s) <= String.length s.
Proof.
  induction s as [|c r IH]; simpl; [lia|]. destruct (is_ws c); simpl; lia.
Qed.

Lemma trimStart_same s :
  String.length (trimStart s) = String.length s -> trimStart s = s.
Proof.
  destruct s as [|c r]; simpl; [reflexivity|].
  destruct (is_ws c); [|reflexivity].
  pose proof (trimStart_length r). lia.
Qed.

Lemma trimEnd_length s : String.length (trimEnd s) <= String.length s.
Proof.
  induction s as [|c r IH]; simpl; [lia|].
  destruct (trimEnd r); [destruct (is_ws c)|]; simpl in *; lia.
Qed.

Lemma trimEnd_same s :
  String.length (trimEnd s) = String.length s -> trimEnd s = s.
Proof.
  induction s as [|c r IH]; simpl; [reflexivity|].
  pose proof (trimEnd_length r) as L.
  destruct (trimEnd r) as [|c' r'] eqn:E.
  - destruct (is_ws c); simpl in *; intros H; [lia|].
    destruct r; [reflexivity | simpl in H; lia].
  - simpl in *. intros H. f_equal. apply IH. lia.
Qed.

Lemma trim_same s : String.length (trim s) = String.length s -> trim s = s.
Proof.
  unfold trim. intros H.
  pose proof (trimStart_length s). pose proof (trimEnd_length (trimStart s)).
  rewrite trimEnd_same by lia. apply trimStart_same. lia.
Qed.

(** Every chip text is trimmed. *)
Lemma chips_trimmed container d x : In x (chips container d) -> trim x = x.
Proof.
  unfold chips. intros H. apply in_map_iff in H. destruct H as (p & <- & _).
  now rewrite trim_lower, trim_idem.
Qed.

(** A candidate found among the chips has no white space at its ends. *)
Lemma trimmed_if_among_chips container d candidate :
  includes (chips container d) (toLowerCase candidate) = true ->
  trim candidate = candidate.
Proof.
  intros I. apply trim_same.
  apply includes_In, chips_trimmed in I. rewrite trim_lower in I.
  rewrite <- (toLowerCase_length (trim candidate)), I.
  apply toLowerCase_length.
Qed.

(** *** The type-select flow, one selection wanted *)


Lemma report_unaccepted_lines unaccepted w :
  report_unaccepted unaccepted w = (Normal tt, extend w (report_lines unaccepted)).
Proof.
  unfold report_unaccepted, report_lines, extend. run_steps.
  destruct unaccepted as [|u us]; simpl; now rewrite <- ?app_assoc.
Qed.

(** Once the trigger is found the flow is its click, its loop and its
    report. *)
Lemma selectByTyping_found host triggerSelector labelToMatch allowMultiple container
      aliases optionSelector w trigger :
  querySelector host triggerSelector container (doc w) = inr (Some trigger) ->
  selectByTypingFromDropdown host triggerSelector labelToMatch allowMultiple
                             container aliases optionSelector w
  = (u <- type_loop host allowMultiple (eid trigger) container
                    (labelArray labelToMatch ++ aliases) [] ;;
     report_unaccepted u)
      (mkWorld (on_click host (eid trigger) (doc w)) (now w)
               (trace w ++ [Click (eid trigger)])).
Proof.
  intros H. unfold selectByTypingFromDropdown, bind at 1, query, lift_query.
  rewrite H. reflexivity.
Qed.

(** The same from the start of the flow: the trigger is found and the
    first candidate is among the chips once the trigger is clicked. *)
Lemma single_select_first_candidate_present (host : Host) (triggerSelector : string)
      (labelToMatch : Labels) (container : Container) (aliases : list string)
      (optionSelector : string) (w : World) (trigger : Element)
      (candidate : string) (later : list string) :
  querySelector host triggerSelector container (doc w) = inr (Some trigger) ->
  labelArray labelToMatch ++ aliases = candidate :: later ->
  shown_as_chip container (on_click host (eid trigger) (doc w)) candidate ->
  selectByTypingFromDropdown host triggerSelector labelToMatch false container
                             aliases optionSelector w
  = (Normal tt,
     mkWorld (on_click host (eid trigger) (doc w)) (now w)
             (trace w ++ Click (eid trigger)
                :: ConsoleLog [LStr "Already present:"; LStr candidate]
                :: report_lines [])).
Proof.
  intros Hq Hc Hp. apply accepted_shown in Hp. unfold accepted in Hp.
  rewrite (selectByTyping_found _ _ _ _ _ _ _ _ _ Hq). rewrite Hc.
  unfold bind at 1. cbn [type_loop]. unfold bind at 1.
  rewrite getCurrentPills_reads. cbn [doc]. rewrite Hp. cbn [negb andb].
  unfold bind at 1, console_log at 1, ret at 1.
  rewrite report_unaccepted_lines. unfold extend, emit. cbn [doc now trace].
  now rewrite <- !app_assoc.
Qed.



(** *** The type-select flow, several selections wanted *)

Lemma replay_app host a b p : replay host (a ++ b) p = replay host b (replay host a p).
Proof. unfold replay. apply fold_left_app. Qed.

Lemma state_of_emit e w : state_of (emit e w) = state_of w.
Proof. reflexivity. Qed.

(** Typing and committing a candidate: the page sees the six steps, in
    their order, and is left as it answers them. *)
Lemma type_and_commit_runs host trigger c w :
  takes_values host trigger ->
  exists w1 tr,
    type_and_commit host trigger c w = (Normal tt, w1)
    /\ trace w1 = trace w ++ tr
    /\ filter touches_page tr = attempt_effects trigger c
    /\ filter is_verdict tr = []
    /\ state_of w1 = replay host (attempt_effects trigger c) (state_of w).
Proof.
  intros Ht. destruct (Ht c (doc w)) as (stored & d' & E).
  unfold type_and_commit, bind, assign_value, console_log, dispatchEvent, sleep, emit.
  rewrite E. cbn [doc now trace].
  eexists. exists [SetValue trigger c;
                   ConsoleLog [LStr "Typing candidate:"; LStr c;
                               LStr "→ Trigger value now:"; LStr stored];
                   Dispatch trigger (bubbling PlainEvent "input"); Sleep 300;
                   Dispatch trigger (enter_key "keydown");
                   Dispatch trigger (enter_key "keyup"); Sleep 500].
  split; [reflexivity|]. cbn [trace].
  split; [now rewrite <- !app_assoc|].
  split; [reflexivity | split; [reflexivity|]].
  unfold state_of, replay, attempt_effects. cbn [fold_left react doc now].
  rewrite E. reflexivity.
Qed.

(** Typing and committing takes 800 ms when timers fire on time. *)
Lemma replay_attempt_time host trigger c p :
  punctual host ->
  snd (replay host (attempt_effects trigger c) p) = (snd p + 800)%Z.
Proof.
  intros Hp. destruct p as [d t]. unfold replay, attempt_effects.
  cbn [fold_left]. unfold react.
  destruct (on_assign host trigger c d) as [e | [stored d']]; cbn [snd];
    rewrite !Hp; cbn [Z.of_N]; lia.
Qed.

(** With multi-select enabled the loop never leaves early. *)
Lemma type_loop_multi host trigger container cands :
  takes_values host trigger ->
  forall unaccepted w, exists w' tr,
    type_loop host true trigger container cands unaccepted w
    = (Normal (unaccepted
               ++ rejected (checks host trigger container cands (state_of w))), w')
    /\ trace w' = trace w ++ tr
    /\ filter touches_page tr = flat_map (attempt_effects trigger) cands
    /\ filter is_verdict tr
       = map (fun r => verdict (fst r) (snd r))
             (checks host trigger container cands (state_of w))
    /\ state_of w'
       = replay host (flat_map (attempt_effects trigger) cands) (state_of w).
Proof.
  intros Ht. induction cands as [|c r IH]; intros unaccepted w.
  - exists w, []. unfold rejected. cbn. rewrite !app_nil_r. repeat split.
  - cbn [type_loop checks flat_map]. unfold bind at 1.
    rewrite getCurrentPills_reads. cbn [negb andb].
    destruct (type_and_commit_runs host trigger c w Ht)
      as (w1 & t1 & E1 & Ht1 & Hp1 & Hv1 & Hs1).
    unfold bind at 1. rewrite E1.
    unfold bind at 1. rewrite getCurrentPills_reads.
    rewrite replay_app, <- Hs1.
    change (includes (chips container (doc w1)) (toLowerCase c))
      with (accepted container c (fst (state_of w1))).
    set (ok := accepted container c (fst (state_of w1))).
    assert (Hw : exists u,
               (if ok
                then console_log [LStr "✅ Added:"; LStr c] ;;
                     type_loop host true trigger container r unaccepted
                else console_warn [LStr "❌ Candidate not accepted:"; LStr c] ;;
                     type_loop host true trigger container r (unaccepted ++ [c]))
                 w1
               = type_loop host true trigger container r u (emit (verdict c ok) w1)
               /\ u ++ rejected (checks host trigger container r (state_of w1))
                  = unaccepted
                    ++ rejected ((c, ok) :: checks host trigger container r (state_of w1))).
    { destruct ok; cbn [negb].
      - exists unaccepted. split; reflexivity.
      - exists (unaccepted ++ [c]). split; [reflexivity|].
        unfold rejected. cbn [filter snd negb map fst]. now rewrite <- app_assoc. }
    destruct Hw as (u & -> & Hu).
    destruct (IH u (emit (verdict c ok) w1)) as (w' & t2 & E2 & Ht2 & Hp2 & Hv2 & Hs2).
    rewrite state_of_emit in E2, Hv2, Hs2.
    exists w', (t1 ++ verdict c ok :: t2).
    split; [now rewrite E2, Hu|].
    split; [rewrite Ht2; unfold emit; cbn [trace]; rewrite Ht1;
            now rewrite <- !app_assoc|].
    split; [rewrite filter_app, Hp1; cbn [filter]; rewrite Hp2;
            destruct ok; reflexivity|].
    split; [|exact Hs2].
    rewrite filter_app, Hv1. cbn [filter app map fst snd]. rewrite Hv2.
    destruct ok; reflexivity.
Qed.

Lemma report_lines_console unaccepted :
  filter touches_page (report_lines unaccepted) = [].
Proof. unfold report_lines. destruct unaccepted; reflexivity. Qed.

Lemma report_lines_no_verdict unaccepted :
  filter is_verdict (report_lines unaccepted) = [].
Proof. unfold report_lines. destruct unaccepted; reflexivity. Qed.

(** The code builds the candidate list the specification describes. *)
Lemma labelArray_candidates labelToMatch aliases :
  labelArray labelToMatch ++ aliases = candidate_list labelToMatch aliases.
Proof. destruct labelToMatch; reflexivity. Qed.

(** C2.  When the trigger is found and takes the values assigned to it,
    [selectByTypingFromDropdown] with multi-select enabled works through
    the target labels in their order followed by the aliases in theirs:
    the page sees the click on the trigger and then every candidate
    typed and committed, in that order, whatever became of the earlier
    ones; after its commit each candidate is looked for among the chips
    of the page as it is then, and the line printed for it says what was
    found; the candidates not found are the unaccepted ones, printed
    together in one warning after the loop, if there are any; and the
    flow completes normally, leaving the page as it answered those
    steps. *)
Theorem multi_select_tries_every_candidate (host : Host)
        (triggerSelector : string) (labelToMatch : Labels) (container : Container)
        (aliases : list string) (optionSelector : string) (w : World)
        (trigger : Element) :
  querySelector host triggerSelector container (doc w) = inr (Some trigger) ->
  takes_values host (eid trigger) ->
  let t := eid trigger in
  let candidates := candidate_list labelToMatch aliases in
  let steps := Click t :: flat_map (attempt_effects t) candidates in
  let outcome := checks host t container candidates
                        (replay host [Click t] (state_of w)) in
  exists w' before,
    selectByTypingFromDropdown host triggerSelector labelToMatch true container
                               aliases optionSelector w = (Normal tt, w')
    /\ filter touches_page (added w w') = steps
    /\ filter is_verdict (added w w')
       = map (fun r => verdict (fst r) (snd r)) outcome
    /\ added w w' = before ++ report_lines (rejected outcome)
    /\ state_of w' = replay host steps (state_of w).
Proof.
  intros H Ht t candidates steps outcome.
  rewrite (selectByTyping_found _ _ _ _ _ _ _ _ _ H). fold t.
  rewrite labelArray_candidates. fold candidates.
  set (clicked := mkWorld (on_click host t (doc w)) (now w) (trace w ++ [Click t])).
  destruct (type_loop_multi host t container candidates Ht [] clicked)
    as (w1 & tr & E & Htr & Hp & Hv & Hs).
  change (state_of clicked) with (replay host [Click t] (state_of w)) in E, Hv, Hs.
  fold outcome in E, Hv.
  exists (extend w1 (report_lines (rejected outcome))), (Click t :: tr).
  unfold bind at 1. rewrite E. cbn [app].
  split; [apply report_unaccepted_lines|].
  assert (A : added w (extend w1 (report_lines (rejected outcome)))
              = Click t :: tr ++ report_lines (rejected outcome)).
  { apply added_app. unfold extend. cbn [trace]. rewrite Htr. unfold clicked.
    cbn [trace]. now rewrite <- !app_assoc. }
  rewrite A. split; [|split; [|split]].
  - cbn [filter touches_page]. rewrite filter_app, Hp, report_lines_console.
    now rewrite app_nil_r.
  - cbn [filter is_verdict]. rewrite filter_app, Hv, report_lines_no_verdict.
    now rewrite app_nil_r.
  - reflexivity.
  - unfold steps. change (Click t :: ?l) with ([Click t] ++ l).
    rewrite replay_app. exact Hs.
Qed.

(** Every sample page takes the values assigned to its fields. *)
Lemma text_fields_take_values host i :
  on_assign host = text_field -> takes_values host i.
Proof. intros E v d. rewrite E. unfold text_field. now eexists; eexists. Qed.

(** On the sample page, with the page that refuses Rust: both labels are
    typed, Python is accepted, and Rust is what the closing warning
    lists. *)
Example multi_select_python_rust :
  let r := selectByTypingFromDropdown chip_host skills_selector
             (ManyLabels ["Python"; "Rust"]) true TheDocument [] EmptyString
             sample_world in
  fst r = Normal tt
  /\ filter touches_page (trace (snd r))
     = Click 12 :: attempt_effects 12 "Python" ++ attempt_effects 12 "Rust"
  /\ last (trace (snd r)) (Sleep 0)
     = ConsoleWarn [LStr "Unaccepted candidates:"; LList ["Rust"]]
  /\ chips TheDocument (doc (snd r)) = ["python"; "python"].
Proof. vm_compute. repeat split; reflexivity. Qed.

(** *** The element-presence waiter *)

Section Waiter.

Variable host : Host.
Variables (selector : string) (container : Container).

Lemma ticks_succ k : forall w,
  ticks host (S k) w = snd (sleep host 100 (ticks host k w)).
Proof.
  induction k as [|k IH]; intros w; [reflexivity|].
  change (ticks host (S (S k)) w) with (ticks host (S k) (snd (sleep host 100 w))).
  now rewrite IH.
Qed.

Lemma now_ticks k :
  punctual host ->
  forall w, now (ticks host k w) = (now w + 100 * Z.of_nat k)%Z.
Proof.
  intros Hp. induction k as [|k IH]; intros w; [simpl; lia|].
  cbn [ticks]. rewrite IH. unfold sleep; cbn [snd now]. rewrite Hp. lia.
Qed.

(** While the selector matches nothing and the deadline has not
    passed, each firing uses one unit of fuel and goes on. *)
Lemma poll_waits start timeout n : forall w fuel,
  (forall j, (1 <= j <= n)%nat ->
             querySelector host selector container (doc (ticks host j w)) = inr None
             /\ (now (ticks host j w) - start <= timeout)%Z) ->
  poll host selector container start timeout (n + fuel) w
  = poll host selector container start timeout fuel (ticks host n w).
Proof.
  induction n as [|n IH]; intros w fuel H; [reflexivity|].
  cbn [Nat.add poll ticks]. unfold bind at 1.
  destruct (H 1%nat ltac:(lia)) as [Hq Ht]. cbn [ticks] in Hq, Ht.
  unfold sleep in *. cbn [snd] in *. rewrite Hq.
  match goal with |- context [(?a >? ?b)%Z] => destruct (Z.gtb_spec a b) end;
    [lia|].
  apply IH. intros j Hj. apply (H (S j)). lia.
Qed.

(** The waiter fails only when more than the timeout has passed on the
    clock since it started, whatever the page does. *)
Lemma poll_fails_late start timeout fuel : forall w e w',
  poll host selector container start timeout fuel w = (Abrupt e, w') ->
  (now w' - start > timeout)%Z /\ e = TimeoutError (timeout_message selector).
Proof.
  induction fuel as [|fuel IH]; intros w e w'; [discriminate|].
  cbn [poll]. unfold bind at 1, sleep at 1.
  match goal with |- context [querySelector host ?s ?c ?d] =>
    destruct (querySelector host s c d) as [err | [el|]] end; try discriminate.
  match goal with |- context [(?a >? ?b)%Z] => destruct (Z.gtb_spec a b) end.
  - intros E. apply pair_equal_spec in E. destruct E as [E1 <-].
    injection E1 as <-. cbn [now] in *. split; [lia | reflexivity].
  - apply IH.
Qed.

Lemma poll_step start timeout fuel w :
  poll host selector container start timeout (S fuel) w
  = let w1 := ticks host 1 w in
    match querySelector host selector container (doc w1) with
    | inl e => (Unsettled, emit (Uncaught e) w1)
    | inr (Some el) => (Normal el, w1)
    | inr None =>
        if (now w1 - start >? timeout)%Z
        then (Abrupt (TimeoutError (timeout_message selector)), w1)
        else poll host selector container start timeout fuel w1
    end.
Proof. reflexivity. Qed.

Lemma ticks_add n m w : ticks host (n + m) w = ticks host m (ticks host n w).
Proof.
  revert w. induction n as [|n IH]; intros w; [reflexivity|].
  cbn [Nat.add ticks]. apply IH.
Qed.

(** A selector that no firing finds satisfied makes the waiter fail
    at the first firing after the timeout. *)
(** A timeout below zero has passed at the first firing. *)
Lemma waiter_negative_timeout timeout w fuel :
  (timeout < 0)%Z ->
  querySelector host selector container (doc (ticks host 1 w)) = inr None ->
  (1 <= fuel)%nat ->
  waitForElement host selector container timeout fuel w
  = (Abrupt (TimeoutError (timeout_message selector)), ticks host 1 w)
  /\ (100 <= now (ticks host 1 w) - now w)%Z
  /\ (punctual host -> now (ticks host 1 w) - now w = 100)%Z.
Proof.
  intros Ht Hq Hf.
  assert (N : now (ticks host 1 w)
              = (now w + (100 + Z.of_N (timer_late host (now w) 100)))%Z) by reflexivity.
  split; [|split].
  - unfold waitForElement. destruct fuel as [|fuel]; [lia|].
    rewrite poll_step. cbv zeta. rewrite Hq.
    destruct (Z.gtb_spec (now (ticks host 1 w) - now w) timeout); [reflexivity | lia].
  - lia.
  - intros Hp. rewrite N, Hp. cbn [Z.of_N]. lia.
Qed.

Lemma waiter_times_out timeout w :
  punctual host ->
  (0 <= timeout)%Z ->
  (forall k, (1 <= k)%nat ->
             querySelector host selector container (doc (ticks host k w)) = inr None) ->
  forall fuel, (S (Z.to_nat (timeout / 100)) <= fuel)%nat ->
    waitForElement host selector container timeout fuel w
    = (Abrupt (TimeoutError (timeout_message selector)),
       ticks host (S (Z.to_nat (timeout / 100))) w)
    /\ (timeout < now (ticks host (S (Z.to_nat (timeout / 100))) w) - now w
        <= timeout + 100)%Z.
Proof.
  intros Hp Ht Hnever fuel Hfuel.
  set (m := Z.to_nat (timeout / 100)) in *.
  assert (Hm : Z.of_nat m = (timeout / 100)%Z).
  { unfold m. apply Z2Nat.id. apply Z.div_pos; lia. }
  pose proof (Z.div_mod timeout 100 ltac:(lia)) as Hdm.
  pose proof (Z.mod_pos_bound timeout 100 ltac:(lia)) as Hmod.
  split.
  - unfold waitForElement.
    replace fuel with (m + S (fuel - S m))%nat by lia.
    rewrite poll_waits.
    + rewrite poll_step. cbv zeta.
      rewrite <- ticks_add. replace (m + 1)%nat with (S m) by lia.
      rewrite Hnever by lia.
      rewrite now_ticks by assumption.
      match goal with |- context [(?a >? ?b)%Z] => destruct (Z.gtb_spec a b) end;
        [reflexivity | lia].
    + intros j Hj. split; [apply Hnever; lia|]. rewrite now_ticks by assumption. lia.
  - rewrite now_ticks by assumption. lia.
Qed.

(** A selector that the firings before a delay of [D] find unsatisfied
    and the firings from [D] on find satisfied makes the waiter resolve
    at the first firing at or after [D]. *)
Lemma waiter_resolves timeout D w :
  punctual host ->
  (0 <= D < timeout)%Z ->
  (forall k, (1 <= k)%nat -> (100 * Z.of_nat k < D)%Z ->
             querySelector host selector container (doc (ticks host k w)) = inr None) ->
  (forall k, (1 <= k)%nat -> (D <= 100 * Z.of_nat k)%Z ->
             exists el,
               querySelector host selector container (doc (ticks host k w))
               = inr (Some el)) ->
  forall fuel, (first_tick_from D <= fuel)%nat ->
    exists el,
      waitForElement host selector container timeout fuel w
      = (Normal el, ticks host (first_tick_from D) w)
      /\ querySelector host selector container (doc (ticks host (first_tick_from D) w))
         = inr (Some el)
      /\ (D <= now (ticks host (first_tick_from D) w) - now w <= D + 100)%Z.
Proof.
  intros Hp HD Hbefore Hfrom fuel Hfuel.
  set (q := Z.to_nat ((D + 99) / 100)) in *.
  assert (Hq : Z.of_nat q = ((D + 99) / 100)%Z).
  { unfold q. apply Z2Nat.id. apply Z.div_pos; lia. }
  pose proof (Z.div_mod (D + 99) 100 ltac:(lia)) as Hdm.
  pose proof (Z.mod_pos_bound (D + 99) 100 ltac:(lia)) as Hmod.
  assert (Hk : (1 <= first_tick_from D)%nat) by (unfold first_tick_from; lia).
  assert (Hlo : (D <= 100 * Z.of_nat (first_tick_from D))%Z)
    by (unfold first_tick_from; fold q; lia).
  assert (Hhi : (100 * Z.of_nat (first_tick_from D) <= D + 100)%Z)
    by (unfold first_tick_from; fold q; lia).
  assert (Hprev : forall j, (1 <= j < first_tick_from D)%nat ->
                            (100 * Z.of_nat j < D)%Z)
    by (unfold first_tick_from; fold q; intros j Hj; lia).
  destruct (Hfrom (first_tick_from D) Hk Hlo) as [el Hel].
  exists el. repeat split; trivial; try (rewrite now_ticks by assumption; lia).
  unfold waitForElement.
  destruct (first_tick_from D) as [|m] eqn:E; [lia|].
  replace fuel with (m + S (fuel - S m))%nat by lia.
  rewrite poll_waits.
  - rewrite poll_step. cbv zeta.
    rewrite <- ticks_add. replace (m + 1)%nat with (S m) by lia.
    now rewrite Hel.
  - intros j Hj. split.
    + apply Hbefore; [lia | apply Hprev; lia].
    + rewrite now_ticks by assumption. pose proof (Hprev j ltac:(lia)). lia.
Qed.

End Waiter.

Lemma inert_ticks k : forall w, doc (ticks inert k w) = doc w.
Proof. induction k as [|k IH]; intros w; [reflexivity|]. cbn [ticks]. now rewrite IH. Qed.

Lemma appearing_ticks k w :
  (1 <= k)%nat ->
  doc (ticks appearing_host k w)
  = if (250 <=? now w + 100 * Z.of_nat k)%Z then sample_page else bare_page.
Proof.
  destruct k as [|k]; [lia|]. intros _. rewrite ticks_succ.
  unfold sleep; cbn [snd doc appearing_host on_elapse timer_late].
  rewrite now_ticks by (intros ? ?; reflexivity).
  replace (now w + 100 * Z.of_nat k + (100 + Z.of_N 0))%Z
    with (now w + 100 * Z.of_nat (S k))%Z by lia.
  reflexivity.
Qed.

(** The revision of utils.js waits on the document; it is the waiter
    above at that container. *)
Lemma UtilsJs_waitForElement host selector timeout fuel w :
  UtilsJs.waitForElement host selector timeout fuel w
  = waitForElement host selector TheDocument timeout fuel w.
Proof.
  unfold UtilsJs.waitForElement, waitForElement. generalize (now w) as start.
  revert w. induction fuel as [|fuel IH]; intros w start; [reflexivity|].
  cbn [UtilsJs.poll poll]. unfold bind. unfold sleep at 1 2.
  destruct (querySelector host selector TheDocument _) as [e | [el|]]; try reflexivity.
  destruct (_ >? _)%Z; [reflexivity | apply IH].
Qed.

(** C4, as amended.  Whatever the page does and however late its timers
    fire, a rejection of [waitForElement] carries the timeout error and
    never comes before more than the timeout has passed.  With timers
    that fire on time and a timeout that is not negative: when no firing
    of the interval finds the selector satisfied, the waiter rejects
    later than the timeout and no later than the timeout plus one
    interval of 100 ms; and when the selector is unsatisfied before a
    delay D below the timeout and satisfied from D on, the waiter
    resolves with the element matching at that moment, between D and
    D + 100 ms after its start.  With a timeout below zero the waiter
    rejects at its first firing when that finds nothing: 100 ms after
    the call or later, which is later than the timeout plus one
    interval. *)
Theorem waitForElement_timing (host : Host) (selector : string)
        (container : Container) (timeout : Z) (w : World) :
  (punctual host -> (0 <= timeout)%Z ->
   (forall k, (1 <= k)%nat ->
              querySelector host selector container (doc (ticks host k w)) = inr None) ->
   forall fuel, (Z.to_nat (timeout / 100) < fuel)%nat ->
     exists w',
       waitForElement host selector container timeout fuel w
       = (Abrupt (TimeoutError (timeout_message selector)), w')
       /\ (timeout < now w' - now w <= timeout + 100)%Z)
  /\ (forall fuel e w',
         waitForElement host selector container timeout fuel w = (Abrupt e, w') ->
         (timeout < now w' - now w)%Z /\ e = TimeoutError (timeout_message selector))
  /\ (forall D,
         punctual host ->
         (0 <= D < timeout)%Z ->
         (forall k, (1 <= k)%nat -> (100 * Z.of_nat k < D)%Z ->
                    querySelector host selector container (doc (ticks host k w)) = inr None) ->
         (forall k, (1 <= k)%nat -> (D <= 100 * Z.of_nat k)%Z ->
                    exists el, querySelector host selector container (doc (ticks host k w))
                               = inr (Some el)) ->
         forall fuel, (first_tick_from D <= fuel)%nat ->
           exists el w',
             waitForElement host selector container timeout fuel w = (Normal el, w')
             /\ querySelector host selector container (doc w') = inr (Some el)
             /\ (D <= now w' - now w <= D + 100)%Z)
  /\ ((timeout < 0)%Z ->
      querySelector host selector container (doc (ticks host 1 w)) = inr None ->
      forall fuel, (1 <= fuel)%nat ->
        waitForElement host selector container timeout fuel w
        = (Abrupt (TimeoutError (timeout_message selector)), ticks host 1 w)
        /\ (100 <= now (ticks host 1 w) - now w)%Z
        /\ (punctual host -> now (ticks host 1 w) - now w = 100)%Z).
Proof.
  split; [|split; [|split]].
  - intros Hp Ht Hnever fuel Hfuel.
    destruct (waiter_times_out host selector container timeout w Hp Ht Hnever fuel)
      as [Hrun Htime]; [lia|].
    eexists. split; [exact Hrun | exact Htime].
  - intros fuel e w' H. unfold waitForElement in H.
    apply poll_fails_late in H. destruct H as [H1 H2]. split; [lia | exact H2].
  - intros D Hp HD Hbefore Hfrom fuel Hfuel.
    destruct (waiter_resolves host selector container timeout D w Hp HD Hbefore Hfrom
                              fuel Hfuel) as (el & Hrun & Hq & Htime).
    exists el. eexists. split; [exact Hrun | split; [exact Hq | exact Htime]].
  - intros Ht Hq fuel Hfuel. now apply waiter_negative_timeout.
Qed.

(** Two waits that are rejected past the timeout plus one interval.
    With a timeout below zero the first firing comes 100 ms after the
    call, finds nothing and rejects, and the bound is 99 ms.  With
    timers throttled to one firing a second, as in a tab in the
    background, a wait of 250 ms is rejected at 1000 ms. *)
Lemma waiter_rejects_past_the_bound :
  let r := waitForElement inert missing_selector TheDocument (-1) 3 sample_world in
  let r' := waitForElement throttled missing_selector TheDocument 250 3 sample_world in
  (punctual inert
   /\ (forall k, querySelector inert missing_selector TheDocument
                   (doc (ticks inert k sample_world)) = inr None)
   /\ fst r = Abrupt (TimeoutError (timeout_message missing_selector))
   /\ (now (snd r) - now sample_world = 100)%Z
   /\ ~ (now (snd r) - now sample_world <= -1 + 100)%Z)
  /\ (fst r' = Abrupt (TimeoutError (timeout_message missing_selector))
      /\ (now (snd r') - now sample_world = 1000)%Z
      /\ ~ (now (snd r') - now sample_world <= 250 + 100)%Z).
Proof.
  cbv zeta. split.
  - split; [intros t ms; reflexivity | split].
    + intros k. rewrite inert_ticks. reflexivity.
    + split; [reflexivity | split; [reflexivity|]]. vm_compute. intros H. now apply H.
  - split; [reflexivity | split; [reflexivity|]]. vm_compute. intros H. now apply H.
Qed.

(** *** Failures and the caller *)

















(** The older revisions: a missing dropdown button is a warning, a
    missing button of the earliest [clickButton] is nothing at all. *)
Lemma UtilsJs_selectDropdownByLabel_not_found host b l o k w :
  querySelector host b k (doc w) = inr None ->
  UtilsJs.selectDropdownByLabel host b l o k w
  = (Normal tt, emit (ConsoleWarn [LStr "Dropdown button not found:"; LStr b]) w).
Proof.
  intros H. unfold UtilsJs.selectDropdownByLabel, bind, query, lift_query.
  now rewrite H.
Qed.

Lemma Legacy_clickButton_not_found host selector w :
  querySelector host selector TheDocument (doc w) = inr None ->
  Legacy.clickButton host selector w = (Normal tt, w).
Proof.
  intros H. unfold Legacy.clickButton, bind, query, lift_query. now rewrite H.
Qed.


(** *** The theorems at work on the sample pages *)

(** The locator picks the second listbox of the sample page and finds
    none on the bare page. *)
Example locator_on_sample_pages :
  getActiveDropdownContainer inert sample_world
  = (Normal (Some (plain 9 "div" [("role", "listbox")] EmptyString)), sample_world)
  /\ getActiveDropdownContainer inert bare_world = (Normal None, bare_world).
Proof. split; reflexivity. Qed.

(** A checkbox in the other state is clicked once. *)
Example checkbox_in_other_state :
  setCheckboxByName inert "agree" true TheDocument sample_world
  = (Normal tt,
     extend sample_world
       [Click 11; ConsoleLog [LStr "Checkbox clicked programmatically."]]).
Proof. reflexivity. Qed.

(** The click-select flow from end to end: the button is clicked, the
    options show at the third firing of the waiter, the later listbox is
    the active one and its option is chosen by an alias. *)
Example click_select_by_alias :
  let r := selectFromDropdownOption opening_host open_selector "Nope" TheDocument
             ["nay"; " NO "] option_selector 51 closed_world in
  fst r = Normal tt
  /\ now (snd r) = 300%Z
  /\ filter touches_page (trace (snd r))
     = [Click 20; Sleep 100; Sleep 100; Sleep 100; Click 10].
Proof. vm_compute. repeat split; reflexivity. Qed.

(** The same flow when the options never show: the timeout of the waiter
    is caught and becomes a warning after 5100 ms. *)
Example click_select_times_out :
  let r := selectFromDropdownOption inert open_selector "Nope" TheDocument
             [] option_selector 51 closed_world in
  fst r = Normal tt
  /\ now (snd r) = 5100%Z
  /\ last (trace (snd r)) (Sleep 0)
     = ConsoleWarn [LStr "Timed out waiting for dropdown options:";
                    LStr (timeout_message option_selector)].
Proof. vm_compute. repeat split; reflexivity. Qed.

(** Several selections on the sample page with the page that refuses
    Rust: the trigger is there, all three candidates are typed and
    committed, each is checked, and Rust is what the closing warning
    lists. *)
Lemma multi_select_tries_every_candidate_witness :
  querySelector chip_host skills_selector TheDocument (doc sample_world)
  = inr (Some skills_input)
  /\ takes_values chip_host 12
  /\ exists w' before,
       selectByTypingFromDropdown chip_host skills_selector
         (ManyLabels ["Python"; "Rust"]) true TheDocument ["Go"] EmptyString
         sample_world = (Normal tt, w')
       /\ filter touches_page (added sample_world w')
          = Click 12 :: attempt_effects 12 "Python" ++ attempt_effects 12 "Rust"
                     ++ attempt_effects 12 "Go"
       /\ filter is_verdict (added sample_world w')
          = [verdict "Python" true; verdict "Rust" false; verdict "Go" true]
       /\ added sample_world w' = before ++ report_lines ["Rust"].
Proof.
  assert (T : takes_values chip_host 12) by (now apply text_fields_take_values).
  split; [reflexivity | split; [exact T|]].
  destruct (multi_select_tries_every_candidate chip_host skills_selector
              (ManyLabels ["Python"; "Rust"]) TheDocument ["Go"] EmptyString
              sample_world skills_input eq_refl T)
    as (w' & before & H1 & H2 & H3 & H4 & _).
  exists w', before. split; [exact H1 | split; [exact H2 | split; [exact H3 | exact H4]]].
Defined.


(** The email input of the sample page is a text field: it keeps the
    address, which is its value after the run. *)
Lemma fillInputByName_email_witness :
  (forall el rest, inputs_named "email" (doc sample_world) = el :: rest ->
                   stores inert (eid el) "a@b.com")
  /\ fillInputByName inert "email" "a@b.com" TheDocument sample_world
     = (Normal tt,
        mkWorld (set_value 3 "a@b.com" sample_page) 0
                [Focus 3; SetValue 3 "a@b.com";
                 Dispatch 3 (bubbling PlainEvent "input");
                 Dispatch 3 (bubbling PlainEvent "change")])
  /\ value_of 3 (set_value 3 "a@b.com" sample_page) = Some "a@b.com".
Proof.
  assert (S : forall el rest, inputs_named "email" (doc sample_world) = el :: rest ->
                              stores inert (eid el) "a@b.com").
  { intros el rest _. now apply inert_stores. }
  split; [exact S | split; [|reflexivity]].
  exact (proj1 (fillInputByName_email inert sample_world S)).
Defined.

(** The checkbox of the sample page is unchecked; asked to be unchecked,
    it is left alone. *)
Lemma setCheckbox_no_click_when_equal_witness :
  querySelector inert (name_selector "agree") TheDocument (doc sample_world)
  = inr (Some agree_checkbox)
  /\ checked agree_checkbox = false
  /\ setCheckboxByName inert "agree" false TheDocument sample_world
     = (Normal tt, sample_world).
Proof.
  split; [reflexivity | split; [reflexivity|]].
  exact (proj1 (proj2 (setCheckbox_no_click_when_equal inert false TheDocument
                                                       sample_world))
               "agree" agree_checkbox eq_refl eq_refl).
Defined.

(** A page without a native setter: the date setter does nothing. *)
Lemma dateSetValue_guards_witness :
  nativeSetter setterless = false
  /\ dateSetValue setterless (Some 3) "2024-01-31" sample_world
     = (Normal tt, sample_world).
Proof.
  split; [reflexivity|].
  exact (proj2 (dateSetValue_guards setterless "2024-01-31" sample_world) 3 eq_refl).
Defined.


(** A tooltip never shows on the sample page: a wait of 250 ms for it is
    rejected between 250 and 350 ms.  The options of the page that opens
    after 250 ms are found between 250 and 350 ms. *)
Lemma waitForElement_timing_witness :
  (0 <= 250)%Z
  /\ (exists w',
        waitForElement inert missing_selector TheDocument 250 3 sample_world
        = (Abrupt (TimeoutError (timeout_message missing_selector)), w')
        /\ (250 < now w' - now sample_world <= 250 + 100)%Z)
  /\ (exists el w',
        waitForElement appearing_host option_selector TheDocument 5000 51 bare_world
        = (Normal el, w')
        /\ querySelector appearing_host option_selector TheDocument (doc w')
           = inr (Some el)
        /\ (250 <= now w' - now bare_world <= 250 + 100)%Z).
Proof.
  split; [lia | split].
  - apply (proj1 (waitForElement_timing inert missing_selector TheDocument 250
                                        sample_world)).
    + intros t ms. reflexivity.
    + lia.
    + intros k _. rewrite inert_ticks. reflexivity.
    + vm_compute. lia.
  - apply (proj1 (proj2 (proj2 (waitForElement_timing appearing_host option_selector
                                  TheDocument 5000 bare_world))) 250%Z).
    + intros t ms. reflexivity.
    + lia.
    + intros k Hk Hlt. rewrite appearing_ticks by exact Hk.
      destruct (Z.leb_spec 250 (now bare_world + 100 * Z.of_nat k));
        [cbn [now bare_world] in *; lia | reflexivity].
    + intros k Hk Hge. rewrite appearing_ticks by exact Hk.
      destruct (Z.leb_spec 250 (now bare_world + 100 * Z.of_nat k));
        [exists first_option; reflexivity | cbn [now bare_world] in *; lia].
    + vm_compute. lia.
Defined.

(** The whole flow, one selection wanted, the label already a chip: the
    trigger is clicked and nothing is typed. *)
Example single_select_already_present :
  selectByTypingFromDropdown inert skills_selector (OneLabel "Python") false
                             TheDocument ["Py"] EmptyString sample_world
  = (Normal tt,
     extend sample_world
       [Click 12;
        ConsoleLog [LStr "Already present:"; LStr "Python"];
        ConsoleLog [LStr "💡 Loop finished. Now printing unacceptedCandidates."]]).
Proof. reflexivity. Qed.

(* ===================================================================== *)
(** ** Further properties of the code                                     *)
(* ===================================================================== *)

(** *** Spellings of labels and aliases *)

Lemma same_text_normalized a b : same_text a b -> normalize a = normalize b.
Proof. apply normalize_same. Qed.

Lemma alias_loop_same options aliases aliases' :
  Forall2 same_text aliases aliases' ->
  alias_loop options aliases = alias_loop options aliases'.
Proof.
  induction 1 as [|a b r r' Hab _ IH]; [reflexivity|].
  cbn [alias_loop]. now rewrite (same_text_normalized a b Hab), IH.
Qed.

(** X1.  The matcher does not tell apart two labels that are the same
    text but for the case of their letters and white space at their
    ends, nor two alias lists that are so alias by alias: on the same
    options they give the same result. *)
Theorem findMatchingOption_ignores_case_and_margins options label label'
        aliases aliases' :
  same_text label label' ->
  Forall2 same_text aliases aliases' ->
  findMatchingOption options label aliases
  = findMatchingOption options label' aliases'.
Proof.
  intros Hl Ha. unfold findMatchingOption.
  rewrite (same_text_normalized _ _ Hl).
  now rewrite (alias_loop_same options aliases aliases' Ha).
Qed.

Lemma findMatchingOption_ignores_case_and_margins_witness :
  same_text "  YES " "yes"
  /\ Forall2 same_text [" No"] ["NO "]
  /\ findMatchingOption [first_option] "  YES " [" No"]
     = findMatchingOption [first_option] "yes" ["NO "].
Proof.
  assert (A : same_text "  YES " "yes") by (apply normalize_same; reflexivity).
  assert (B : Forall2 same_text [" No"] ["NO "]).
  { constructor; [apply normalize_same; reflexivity | constructor]. }
  split; [exact A | split; [exact B|]].
  exact (findMatchingOption_ignores_case_and_margins [first_option] "  YES " "yes"
           [" No"] ["NO "] A B).
Defined.

(** *** The chips and candidates with white space at their ends *)



(** *** More on the type-select flow *)

Lemma rejected_untrimmed host trigger container candidate cands :
  trim candidate <> candidate ->
  In candidate cands ->
  forall p, In candidate (rejected (checks host trigger container cands p)).
Proof.
  intros Ht. induction cands as [|c r IH]; intros Hin p; [destruct Hin|].
  unfold rejected. cbn [checks filter fst snd].
  destruct Hin as [-> | Hin].
  - unfold accepted at 1.
    match goal with |- context [includes ?l ?x] => destruct (includes l x) eqn:I end.
    + exfalso. apply Ht. eapply trimmed_if_among_chips. exact I.
    + now left.
  - match goal with |- context [negb ?b] => destruct (negb b) end;
      [right|]; apply IH; assumption.
Qed.

(** X3.  With multi-select enabled and a trigger that takes the values
    assigned to it, a candidate with white space at an end is typed like
    the others and is always among the unaccepted candidates of the
    closing warning, even when the page turned it into a chip. *)
Theorem untrimmed_candidate_always_unaccepted (host : Host)
        (triggerSelector : string) (labelToMatch : Labels) (container : Container)
        (aliases : list string) (optionSelector : string) (w : World)
        (trigger : Element) (candidate : string) :
  querySelector host triggerSelector container (doc w) = inr (Some trigger) ->
  takes_values host (eid trigger) ->
  In candidate (labelArray labelToMatch ++ aliases) ->
  trim candidate <> candidate ->
  exists w0 unaccepted,
    selectByTypingFromDropdown host triggerSelector labelToMatch true container
                               aliases optionSelector w
    = (Normal tt,
       extend w0
         [ConsoleLog [LStr "💡 Loop finished. Now printing unacceptedCandidates."];
          ConsoleWarn [LStr "Unaccepted candidates:"; LList unaccepted]])
    /\ In candidate unaccepted.
Proof.
  intros Hq Hv Hin Ht. rewrite (selectByTyping_found _ _ _ _ _ _ _ _ _ Hq).
  set (clicked := mkWorld _ _ _).
  destruct (type_loop_multi host (eid trigger) container
              (labelArray labelToMatch ++ aliases) Hv [] clicked) as (w1 & tr & E & _).
  pose proof (rejected_untrimmed host (eid trigger) container candidate _ Ht Hin
                (state_of clicked)) as Hr.
  unfold bind at 1. rewrite E. cbn [app].
  rewrite report_unaccepted_lines.
  eexists. eexists. split; [|exact Hr].
  unfold report_lines.
  match goal with |- context [rejected ?c] =>
    destruct (rejected c) as [|x l]; [destruct Hr | reflexivity] end.
Qed.

(** The page that turns every value into a chip keeps the white space of
    the text; the reader trims it, the comparison does not. *)
Lemma untrimmed_candidate_always_unaccepted_witness :
  querySelector chip_host skills_selector TheDocument (doc sample_world)
  = inr (Some skills_input)
  /\ takes_values chip_host 12
  /\ In "Go " (labelArray (ManyLabels ["Go "]) ++ [])
  /\ trim "Go " <> "Go "
  /\ exists w0 unaccepted,
       selectByTypingFromDropdown chip_host skills_selector (ManyLabels ["Go "]) true
                                  TheDocument [] EmptyString sample_world
       = (Normal tt,
          extend w0
            [ConsoleLog [LStr "💡 Loop finished. Now printing unacceptedCandidates."];
             ConsoleWarn [LStr "Unaccepted candidates:"; LList unaccepted]])
       /\ In "Go " unaccepted.
Proof.
  assert (T : takes_values chip_host 12) by (now apply text_fields_take_values).
  split; [reflexivity | split; [exact T | split; [now left | split; [discriminate|]]]].
  apply (untrimmed_candidate_always_unaccepted chip_host skills_selector
           (ManyLabels ["Go "]) TheDocument [] EmptyString sample_world skills_input
           "Go " eq_refl T).
  - now left.
  - discriminate.
Defined.

(** Typing and committing the candidates takes 800 ms each when timers
    fire on time. *)
Lemma replay_attempts_time host trigger cands :
  punctual host ->
  forall p, snd (replay host (flat_map (attempt_effects trigger) cands) p)
            = (snd p + 800 * Z.of_nat (length cands))%Z.
Proof.
  intros Hp. induction cands as [|c r IH]; intros p; [cbn; lia|].
  cbn [flat_map length]. rewrite replay_app, IH.
  rewrite replay_attempt_time by exact Hp. lia.
Qed.

(** X4.  With multi-select enabled, a trigger that takes the values
    assigned to it and timers that fire on time, the flow takes 800 ms
    for every candidate, accepted or not: it completes 800 ms times the
    number of labels and aliases after its call. *)
Theorem multi_select_duration (host : Host)
        (triggerSelector : string) (labelToMatch : Labels) (container : Container)
        (aliases : list string) (optionSelector : string) (w : World)
        (trigger : Element) :
  punctual host ->
  querySelector host triggerSelector container (doc w) = inr (Some trigger) ->
  takes_values host (eid trigger) ->
  exists w',
    selectByTypingFromDropdown host triggerSelector labelToMatch true container
                               aliases optionSelector w = (Normal tt, w')
    /\ now w' = (now w + 800 * Z.of_nat (length (labelArray labelToMatch)
                                         + length aliases))%Z.
Proof.
  intros Hp Hq Hv. rewrite (selectByTyping_found _ _ _ _ _ _ _ _ _ Hq).
  set (clicked := mkWorld _ _ _).
  destruct (type_loop_multi host (eid trigger) container
              (labelArray labelToMatch ++ aliases) Hv [] clicked)
    as (w1 & tr & E & _ & _ & _ & Hs).
  unfold bind at 1. rewrite E. cbn [app].
  rewrite report_unaccepted_lines. eexists. split; [reflexivity|].
  unfold extend. cbn [now]. change (now w1) with (snd (state_of w1)).
  rewrite Hs, replay_attempts_time by exact Hp.
  cbn [snd state_of now]. now rewrite length_app.
Qed.

Lemma multi_select_duration_witness :
  punctual chip_host
  /\ querySelector chip_host skills_selector TheDocument (doc sample_world)
     = inr (Some skills_input)
  /\ takes_values chip_host 12
  /\ exists w',
       selectByTypingFromDropdown chip_host skills_selector
         (ManyLabels ["Python"; "Rust"]) true TheDocument ["Go"] EmptyString sample_world
       = (Normal tt, w')
       /\ now w' = 2400%Z.
Proof.
  assert (T : takes_values chip_host 12) by (now apply text_fields_take_values).
  split; [intros t ms; reflexivity | split; [reflexivity | split; [exact T|]]].
  exact (multi_select_duration chip_host skills_selector (ManyLabels ["Python"; "Rust"])
           TheDocument ["Go"] EmptyString sample_world skills_input
           (fun _ _ => eq_refl) eq_refl T).
Defined.




(** What that run is: Rust refused, Go accepted, Zig left alone. *)
Example single_select_rust_go_zig :
  let r := selectByTypingFromDropdown chip_host skills_selector (OneLabel "Rust") false
             TheDocument ["Go"; "Zig"] EmptyString sample_world in
  fst r = Normal tt
  /\ filter touches_page (trace (snd r))
     = Click 12 :: attempt_effects 12 "Rust" ++ attempt_effects 12 "Go"
  /\ last (trace (snd r)) (Sleep 0)
     = ConsoleWarn [LStr "Unaccepted candidates:"; LList ["Rust"]]
  /\ now (snd r) = 1600%Z.
Proof. vm_compute. repeat split; reflexivity. Qed.

(** *** More on the waiter *)

Lemma ticks_trace host k : forall w,
  trace (ticks host k w) = trace w ++ repeat (Sleep 100) k.
Proof.
  induction k as [|k IH]; intros w; [cbn; now rewrite app_nil_r|].
  cbn [ticks repeat]. rewrite IH. unfold sleep. cbn [snd trace].
  now rewrite <- app_assoc.
Qed.

(** X6.  The waiter resolves at the first firing that finds the element,
    provided no earlier firing came after the deadline: the deadline is
    looked at only when the element is not there, so the firing that
    finds it may itself be past the deadline, and a timeout of zero or
    less still resolves when the first firing finds the element. *)
Theorem waiter_resolves_at_first_sighting (host : Host) (selector : string)
        (container : Container) (timeout : Z) (w : World) (k fuel : nat)
        (el : Element) :
  (forall j, (1 <= j < k)%nat ->
             querySelector host selector container (doc (ticks host j w)) = inr None
             /\ (now (ticks host j w) - now w <= timeout)%Z) ->
  querySelector host selector container (doc (ticks host k w)) = inr (Some el) ->
  (1 <= k <= fuel)%nat ->
  waitForElement host selector container timeout fuel w
  = (Normal el, ticks host k w).
Proof.
  intros Hbefore Hk Hfuel. unfold waitForElement.
  destruct k as [|m]; [lia|].
  replace fuel with (m + S (fuel - S m))%nat by lia.
  rewrite poll_waits by (intros j Hj; apply Hbefore; lia).
  rewrite poll_step. cbv zeta. rewrite <- ticks_add.
  replace (m + 1)%nat with (S m) by lia. now rewrite Hk.
Qed.

(** The options of the page that opens after 250 ms are found at 300 ms,
    past a timeout of 250 ms. *)
Lemma waiter_resolves_at_first_sighting_witness :
  waitForElement appearing_host option_selector TheDocument 250 3 bare_world
  = (Normal first_option, ticks appearing_host 3 bare_world)
  /\ now (ticks appearing_host 3 bare_world) = 300%Z.
Proof.
  split; [|reflexivity].
  apply (waiter_resolves_at_first_sighting appearing_host option_selector TheDocument
           250 bare_world 3 3 first_option).
  - intros j Hj. destruct j as [|[|[|j]]]; try lia; split; try reflexivity;
      vm_compute; discriminate.
  - reflexivity.
  - lia.
Defined.

Lemma poll_settled host selector container start timeout fuel : forall w r w',
  poll host selector container start timeout fuel w = (r, w') ->
  (exists el, r = Normal el) \/ (exists e, r = Abrupt e) ->
  exists k, (1 <= k <= fuel)%nat /\ w' = ticks host k w.
Proof.
  induction fuel as [|fuel IH]; intros w r w' H Hr.
  - cbn in H. apply pair_equal_spec in H. destruct H as [<- _].
    destruct Hr as [[el Hr] | [e Hr]]; discriminate.
  - rewrite poll_step in H. cbv zeta in H.
    destruct (querySelector host selector container (doc (ticks host 1 w)))
      as [err | [el|]] eqn:Q.
    + apply pair_equal_spec in H. destruct H as [<- _].
      destruct Hr as [[el Hr] | [e Hr]]; discriminate.
    + apply pair_equal_spec in H. destruct H as [_ <-]. exists 1%nat. split; [lia | reflexivity].
    + destruct (now (ticks host 1 w) - start >? timeout)%Z.
      * apply pair_equal_spec in H. destruct H as [_ <-].
        exists 1%nat. split; [lia | reflexivity].
      * destruct (IH _ _ _ H Hr) as (k & Hk & ->).
        exists (S k). split; [lia | reflexivity].
Qed.

(** X7.  A waiter that resolved or rejected has done nothing but let the
    interval fire: it settles at a firing, never at its call, the world
    is the one the page made of it in that time, and the waiter's own
    part of the trace is the firings, with no click, no event and no
    console line. *)
Theorem waiter_only_waits (host : Host) (selector : string) (container : Container)
        (timeout : Z) (fuel : nat) (w w' : World) (r : Completion Element) :
  waitForElement host selector container timeout fuel w = (r, w') ->
  (exists el, r = Normal el) \/ (exists e, r = Abrupt e) ->
  exists k, (1 <= k <= fuel)%nat
            /\ w' = ticks host k w
            /\ trace w' = trace w ++ repeat (Sleep 100) k.
Proof.
  intros H Hr. unfold waitForElement in H.
  destruct (poll_settled _ _ _ _ _ _ _ _ _ H Hr) as (k & Hk & ->).
  exists k. repeat split; try lia. apply ticks_trace.
Qed.

Lemma waiter_only_waits_witness :
  waitForElement inert missing_selector TheDocument 250 5 sample_world
  = (Abrupt (TimeoutError (timeout_message missing_selector)),
     mkWorld sample_page 300 [Sleep 100; Sleep 100; Sleep 100])
  /\ exists k, (1 <= k <= 5)%nat
               /\ mkWorld sample_page 300 [Sleep 100; Sleep 100; Sleep 100]
                  = ticks inert k sample_world
               /\ [Sleep 100; Sleep 100; Sleep 100]
                  = trace sample_world ++ repeat (Sleep 100) k.
Proof.
  split; [reflexivity|].
  exact (waiter_only_waits inert missing_selector TheDocument 250 5 sample_world _ _
           eq_refl (or_intror (ex_intro _ _ eq_refl))).
Defined.

(** *** More on the click-select flow *)

Lemma getActiveDropdownContainer_none host w :
  listboxes (doc w) = [] -> getActiveDropdownContainer host w = (Normal None, w).
Proof.
  intros H. unfold getActiveDropdownContainer, bind, queryAll, lift_query.
  now rewrite querySelectorAll_listbox, H.
Qed.

Lemma getActiveDropdownContainer_some host w before x :
  listboxes (doc w) = before ++ [x] ->
  getActiveDropdownContainer host w = (Normal (Some x), w).
Proof.
  intros H. unfold getActiveDropdownContainer, bind, queryAll, lift_query.
  rewrite querySelectorAll_listbox, H.
  destruct (length (before ++ [x]) =? 0)%nat eqn:L.
  - apply Nat.eqb_eq in L. rewrite length_app in L; simpl in L; lia.
  - unfold ret. now rewrite nth_error_last.
Qed.

(** Once the button is found the flow is its click, its wait and what
    comes after the wait. *)
Lemma selectFromDropdownOption_found host b l k a o fuel w button :
  querySelector host b k (doc w) = inr (Some button) ->
  selectFromDropdownOption host b l k a o fuel w
  = (appeared <- try_catch
                   (waitForElement host o TheDocument 5000 fuel ;; ret true)
                   (fun err =>
                      console_warn [LStr "Timed out waiting for dropdown options:";
                                    LStr (message err)] ;;
                      ret false) ;;
     if negb appeared then ret tt
     else
       activeDropdown <- getActiveDropdownContainer host ;;
       match activeDropdown with
       | None => console_warn [LStr "⚠️ No active dropdown container found."]
       | Some activeDropdown =>
           options <- queryAll host o (Within (eid activeDropdown)) ;;
           console_log [LStr "Dropdown options found:";
                        LList (map (fun x => trim (textContent x)) options)] ;;
           match findMatchingOption options l a with
           | Some m => click host (eid m)
           | None =>
               console_warn [LStr "Dropdown option not found:"; LStr l;
                             LStr "Aliases tried:"; LList a]
           end
       end)
      (mkWorld (on_click host (eid button) (doc w)) (now w)
               (trace w ++ [Click (eid button)])).
Proof.
  intros H. unfold selectFromDropdownOption, bind at 1, query, lift_query.
  rewrite H. reflexivity.
Qed.

(** X8.  A selector that the engine refuses makes the lookup inside the
    interval throw where no caller can catch it: the waiter neither
    resolves nor rejects, and a click-select flow with such an option
    selector never completes, although it has found and clicked its
    button. *)
Theorem refused_option_selector_hangs (host : Host) (optionSelector : string)
        (fuel : nat) (w : World) :
  refused host optionSelector ->
  (1 <= fuel)%nat ->
  (forall container timeout,
      waitForElement host optionSelector container timeout fuel w
      = (Unsettled, emit (Uncaught (SyntaxError optionSelector)) (ticks host 1 w)))
  /\ (forall buttonSelector labelToMatch container aliases button,
         querySelector host buttonSelector container (doc w) = inr (Some button) ->
         selectFromDropdownOption host buttonSelector labelToMatch container aliases
                                  optionSelector fuel w
         = (Unsettled,
            emit (Uncaught (SyntaxError optionSelector))
                 (ticks host 1 (mkWorld (on_click host (eid button) (doc w)) (now w)
                                        (trace w ++ [Click (eid button)]))))).
Proof.
  intros Hp Hfuel.
  assert (W : forall container timeout w0,
             waitForElement host optionSelector container timeout fuel w0
             = (Unsettled, emit (Uncaught (SyntaxError optionSelector)) (ticks host 1 w0))).
  { intros container timeout w0. unfold waitForElement.
    destruct fuel as [|fuel]; [lia|]. rewrite poll_step. cbv zeta.
    unfold querySelector, querySelectorAll. unfold refused in Hp. now rewrite Hp. }
  split; [intros; apply W|].
  intros b l k a button Hq.
  rewrite (selectFromDropdownOption_found _ _ _ _ _ _ _ _ _ Hq).
  unfold bind at 1, try_catch, bind at 1. now rewrite W.
Qed.

Lemma refused_option_selector_hangs_witness :
  refused inert broken_selector
  /\ selectFromDropdownOption inert open_selector "No" TheDocument [] broken_selector
       51 closed_world
     = (Unsettled,
        mkWorld closed_page 100
                [Click 20; Sleep 100; Uncaught (SyntaxError broken_selector)]).
Proof.
  split; [reflexivity|].
  exact (proj2 (refused_option_selector_hangs inert broken_selector 51 closed_world
                  eq_refl ltac:(lia))
               open_selector "No" TheDocument []
               (plain 20 "button" [("id", "open")] EmptyString) eq_refl).
Defined.

(** X9.  When no option shows, the click-select flow gives up by itself:
    with timers that fire on time it returns normally 5100 ms after its
    call, at the fifty-first firing of the waiter, having clicked the
    button and printed the timeout as a warning, and nothing else. *)
Theorem click_select_gives_up (host : Host) (buttonSelector labelToMatch : string)
        (container : Container) (aliases : list string) (optionSelector : string)
        (fuel : nat) (w : World) (button : Element) :
  punctual host ->
  querySelector host buttonSelector container (doc w) = inr (Some button) ->
  let clicked := mkWorld (on_click host (eid button) (doc w)) (now w)
                         (trace w ++ [Click (eid button)]) in
  (forall k, (1 <= k)%nat ->
             querySelector host optionSelector TheDocument (doc (ticks host k clicked))
             = inr None) ->
  (51 <= fuel)%nat ->
  selectFromDropdownOption host buttonSelector labelToMatch container aliases
                           optionSelector fuel w
  = (Normal tt,
     emit (ConsoleWarn [LStr "Timed out waiting for dropdown options:";
                        LStr (timeout_message optionSelector)])
          (ticks host 51 clicked))
  /\ now (ticks host 51 clicked) = (now w + 5100)%Z
  /\ trace (ticks host 51 clicked)
     = trace w ++ Click (eid button) :: repeat (Sleep 100) 51.
Proof.
  intros Hp Hq clicked Hnever Hfuel.
  destruct (waiter_times_out host optionSelector TheDocument 5000 clicked Hp
              ltac:(lia) Hnever fuel) as [Hrun _].
  { change (Z.to_nat (5000 / 100)) with 50%nat. lia. }
  change (Z.to_nat (5000 / 100)) with 50%nat in Hrun.
  split; [|split].
  - rewrite (selectFromDropdownOption_found _ _ _ _ _ _ _ _ _ Hq). fold clicked.
    unfold bind at 1, try_catch, bind at 1. rewrite Hrun. reflexivity.
  - rewrite now_ticks by exact Hp. cbn [now clicked]. lia.
  - rewrite ticks_trace. unfold clicked. cbn [trace]. now rewrite <- app_assoc.
Qed.

Lemma click_select_gives_up_witness :
  punctual inert
  /\ querySelector inert open_selector TheDocument (doc closed_world)
     = inr (Some (plain 20 "button" [("id", "open")] EmptyString))
  /\ fst (selectFromDropdownOption inert open_selector "No" TheDocument []
            option_selector 60 closed_world) = Normal tt
  /\ now (ticks inert 51 (mkWorld closed_page 0 [Click 20])) = 5100%Z.
Proof.
  split; [intros t ms; reflexivity | split; [reflexivity|]].
  destruct (click_select_gives_up inert open_selector "No" TheDocument []
              option_selector 60 closed_world
              (plain 20 "button" [("id", "open")] EmptyString)
              (fun _ _ => eq_refl) eq_refl) as (H1 & H2 & _).
  - intros k _. rewrite inert_ticks. reflexivity.
  - lia.
  - split; [now rewrite H1 | exact H2].
Defined.

Lemma waiter_resolved_selects host selector container timeout fuel w el w' :
  waitForElement host selector container timeout fuel w = (Normal el, w') ->
  exists test, selects host selector = Some test.
Proof.
  intros H. unfold waitForElement in H.
  destruct (poll_settled _ _ _ _ _ _ _ _ _ H (or_introl (ex_intro _ el eq_refl)))
    as (k & Hk & ->).
  destruct (selects host selector) as [s|] eqn:P; [now exists s|].
  exfalso. destruct fuel as [|fuel]; [lia|].
  rewrite poll_step in H. cbv zeta in H.
  unfold querySelector, querySelectorAll in H. rewrite P in H. discriminate.
Qed.

(** X10.  What the click-select flow does once its waiter has resolved:
    it always completes normally; without a listbox in the document it
    prints a warning and clicks nothing, although an option was found;
    otherwise the options are those below the last listbox only, and the
    one clicked is the one the matcher picks among them, or none and a
    warning.  The element the waiter resolved with plays no part. *)
Theorem click_select_after_the_wait (host : Host) (buttonSelector labelToMatch : string)
        (container : Container) (aliases : list string) (optionSelector : string)
        (fuel : nat) (w : World) (button el : Element) (w2 : World) :
  querySelector host buttonSelector container (doc w) = inr (Some button) ->
  waitForElement host optionSelector TheDocument 5000 fuel
                 (mkWorld (on_click host (eid button) (doc w)) (now w)
                          (trace w ++ [Click (eid button)]))
  = (Normal el, w2) ->
  let run := selectFromDropdownOption host buttonSelector labelToMatch container
                                      aliases optionSelector fuel w in
  (exists w', run = (Normal tt, w'))
  /\ (listboxes (doc w2) = [] ->
      run = (Normal tt,
             emit (ConsoleWarn [LStr "⚠️ No active dropdown container found."]) w2))
  /\ (forall before active,
         listboxes (doc w2) = before ++ [active] ->
         exists options,
           querySelectorAll host optionSelector (Within (eid active)) (doc w2) = inr options
           /\ let listed := emit (ConsoleLog
                                    [LStr "Dropdown options found:";
                                     LList (map (fun x => trim (textContent x)) options)])
                                 w2 in
              run = match findMatchingOption options labelToMatch aliases with
                    | Some m =>
                        (Normal tt,
                         mkWorld (on_click host (eid m) (doc listed)) (now listed)
                                 (trace listed ++ [Click (eid m)]))
                    | None =>
                        (Normal tt,
                         emit (ConsoleWarn [LStr "Dropdown option not found:";
                                            LStr labelToMatch;
                                            LStr "Aliases tried:"; LList aliases])
                              listed)
                    end).
Proof.
  intros Hq Hw run.
  destruct (waiter_resolved_selects _ _ _ _ _ _ _ _ Hw) as [s Hs].
  assert (Hrun : run
                 = (activeDropdown <- getActiveDropdownContainer host ;;
                    match activeDropdown with
                    | None => console_warn [LStr "⚠️ No active dropdown container found."]
                    | Some activeDropdown =>
                        options <- queryAll host optionSelector (Within (eid activeDropdown)) ;;
                        console_log [LStr "Dropdown options found:";
                                     LList (map (fun x => trim (textContent x)) options)] ;;
                        match findMatchingOption options labelToMatch aliases with
                        | Some m => click host (eid m)
                        | None =>
                            console_warn [LStr "Dropdown option not found:";
                                          LStr labelToMatch;
                                          LStr "Aliases tried:"; LList aliases]
                        end
                    end) w2).
  { unfold run. rewrite (selectFromDropdownOption_found _ _ _ _ _ _ _ _ _ Hq).
    unfold bind at 1, try_catch, bind at 1. rewrite Hw. reflexivity. }
  assert (Hsome : forall before active,
             listboxes (doc w2) = before ++ [active] ->
             exists options,
               querySelectorAll host optionSelector (Within (eid active)) (doc w2) = inr options
               /\ run = match findMatchingOption options labelToMatch aliases with
                        | Some m =>
                            click host (eid m)
                              (emit (ConsoleLog
                                       [LStr "Dropdown options found:";
                                        LList (map (fun x => trim (textContent x)) options)])
                                    w2)
                        | None =>
                            console_warn [LStr "Dropdown option not found:";
                                          LStr labelToMatch;
                                          LStr "Aliases tried:"; LList aliases]
                              (emit (ConsoleLog
                                       [LStr "Dropdown options found:";
                                        LList (map (fun x => trim (textContent x)) options)])
                                    w2)
                        end).
  { intros before active Hl. rewrite Hrun. unfold bind at 1.
    rewrite (getActiveDropdownContainer_some _ _ _ _ Hl).
    unfold bind at 1, queryAll, lift_query, querySelectorAll. rewrite Hs.
    eexists. split; [reflexivity|].
    unfold bind at 1, console_log at 1.
    destruct (findMatchingOption _ labelToMatch aliases); reflexivity. }
  split; [|split].
  - assert (C : listboxes (doc w2) = [] \/
                exists before y, listboxes (doc w2) = before ++ [y]).
    { destruct (listboxes (doc w2)) as [|x r]; [now left | right].
      destruct (exists_last (l := x :: r)) as (b0 & y & H); [discriminate|].
      now exists b0, y. }
    destruct C as [E | (before & y & E)].
    + rewrite Hrun. unfold bind at 1. rewrite (getActiveDropdownContainer_none _ _ E).
      now eexists.
    + destruct (Hsome _ _ E) as (options & _ & ->).
      destruct (findMatchingOption options labelToMatch aliases); now eexists.
  - intros E. rewrite Hrun. unfold bind at 1.
    now rewrite (getActiveDropdownContainer_none _ _ E).
  - intros before active E. destruct (Hsome _ _ E) as (options & Ho & ->).
    exists options. split; [exact Ho|]. cbv zeta.
    destruct (findMatchingOption options labelToMatch aliases); reflexivity.
Qed.

(** On the page that opens after 250 ms the waiter resolves with the
    first option of the document, which is below the first listbox; the
    option clicked is the one below the last listbox. *)
Lemma click_select_after_the_wait_witness :
  let clicked := mkWorld closed_page 0 [Click 20] in
  let w2 := ticks opening_host 3 clicked in
  querySelector opening_host open_selector TheDocument (doc closed_world)
  = inr (Some (plain 20 "button" [("id", "open")] EmptyString))
  /\ waitForElement opening_host option_selector TheDocument 5000 51 clicked
     = (Normal first_option, w2)
  /\ listboxes (doc w2)
     = [plain 4 "div" [("role", "listbox")] EmptyString]
         ++ [plain 9 "div" [("role", "listbox")] EmptyString]
  /\ exists options,
       querySelectorAll opening_host option_selector (Within 9) (doc w2) = inr options
       /\ selectFromDropdownOption opening_host open_selector "Nope" TheDocument
            ["nay"; " NO "] option_selector 51 closed_world
          = match findMatchingOption options "Nope" ["nay"; " NO "] with
            | Some m =>
                (Normal tt,
                 mkWorld sample_page 300
                   (trace w2
                      ++ [ConsoleLog [LStr "Dropdown options found:";
                                      LList (map (fun x => trim (textContent x)) options)]]
                      ++ [Click (eid m)]))
            | None =>
                (Normal tt,
                 emit (ConsoleWarn [LStr "Dropdown option not found:"; LStr "Nope";
                                    LStr "Aliases tried:"; LList ["nay"; " NO "]])
                      (emit (ConsoleLog
                               [LStr "Dropdown options found:";
                                LList (map (fun x => trim (textContent x)) options)])
                            w2))
            end.
Proof.
  cbv zeta. split; [reflexivity | split; [reflexivity | split; [reflexivity|]]].
  exact (proj2 (proj2 (click_select_after_the_wait opening_host open_selector "Nope"
                         TheDocument ["nay"; " NO "] option_selector 51 closed_world
                         (plain 20 "button" [("id", "open")] EmptyString)
                         first_option _ eq_refl eq_refl))
               [plain 4 "div" [("role", "listbox")] EmptyString]
               (plain 9 "div" [("role", "listbox")] EmptyString) eq_refl).
Defined.

(** *** The setters and the state of the document *)

(** What a query finds is an element of the document. *)
Lemma querySelector_In host sel c d el :
  querySelector host sel c d = inr (Some el) -> In el (elements d).
Proof.
  unfold querySelector, querySelectorAll.
  destruct (selects host sel) as [test|]; [|discriminate].
  intros [= H]. unfold elements.
  destruct (filter _ (entries d)) as [|x l] eqn:F; [discriminate|].
  cbn in H. injection H as <-.
  assert (I : In x (filter (fun en => in_scope c en && test d en) (entries d))).
  { rewrite F. now left. }
  apply filter_In in I. apply in_map. exact (proj1 I).
Qed.

(** In a document whose elements are told apart by their identity. *)
Lemma same_identity d a b :
  NoDup (map eid (elements d)) ->
  In a (elements d) -> In b (elements d) -> eid a = eid b -> a = b.
Proof.
  generalize (elements d) as l. induction l as [|x l IH]; intros N Ha Hb E; [destruct Ha|].
  cbn [map] in N. inversion N as [|y m Hx Hl]; subst.
  destruct Ha as [<- | Ha], Hb as [<- | Hb]; trivial.
  - exfalso. apply Hx. rewrite E. now apply in_map.
  - exfalso. apply Hx. rewrite <- E. now apply in_map.
  - now apply IH.
Qed.

(** X11.  [fillInputBySelector] focuses the element before it assigns
    and dispatches after: when the assignment throws, as it does for a
    file input, the element has been focused, no event is dispatched, no
    warning is printed, and the error is thrown at the caller. *)
Theorem fill_stops_at_a_throwing_assignment (host : Host) (selector value : string)
        (container : Container) (w : World) (el : Element) (e : JsError) :
  querySelector host selector container (doc w) = inr (Some el) ->
  on_assign host (eid el) value (on_focus host (eid el) (doc w)) = inl e ->
  fillInputBySelector host selector value container w
  = (Abrupt e,
     mkWorld (on_focus host (eid el) (doc w)) (now w)
             (trace w ++ [Focus (eid el); SetValue (eid el) value])).
Proof.
  intros Hq He. unfold fillInputBySelector, bind at 1, query, lift_query. rewrite Hq.
  unfold bind at 1, focus at 1. unfold bind at 1, assign_value. cbn [doc].
  rewrite He. unfold emit. cbn [doc now trace]. now rewrite <- app_assoc.
Qed.

(** A form with a file input and a page whose file inputs throw for
    every string but the empty one. *)
Lemma fill_stops_at_a_throwing_assignment_witness :
  querySelector filing (name_selector "cv") TheDocument (doc file_world)
  = inr (Some (plain 3 "input" [("type", "file"); ("name", "cv")] EmptyString))
  /\ fillInputBySelector filing (name_selector "cv") "cv.pdf" TheDocument file_world
     = (Abrupt (DomException "InvalidStateError" EmptyString),
        mkWorld file_page 0 [Focus 3; SetValue 3 "cv.pdf"]).
Proof.
  split; [reflexivity|].
  exact (fill_stops_at_a_throwing_assignment filing (name_selector "cv") "cv.pdf"
           TheDocument file_world
           (plain 3 "input" [("type", "file"); ("name", "cv")] EmptyString)
           (DomException "InvalidStateError" EmptyString) eq_refl eq_refl).
Defined.

Lemma setCheckboxBySelector_found host selector wanted container w el :
  querySelector host selector container (doc w) = inr (Some el) ->
  setCheckboxBySelector host selector wanted container w
  = if Bool.eqb (checked el) wanted then (Normal tt, w)
    else (Normal tt,
          mkWorld (on_click host (eid el) (doc w)) (now w)
                  (trace w ++ [Click (eid el);
                               ConsoleLog [LStr "Checkbox clicked programmatically."]])).
Proof.
  intros H. unfold setCheckboxBySelector, bind at 1, query, lift_query. rewrite H.
  destruct (Bool.eqb (checked el) wanted); [reflexivity|].
  cbn [negb]. unfold bind, click, console_log, emit. cbn [doc now trace].
  now rewrite <- app_assoc.
Qed.

(** X12.  On a page where a click flips a checkbox and does nothing
    else, the checkbox setter establishes the requested state: after the
    run the element it found has the requested checked state, and a
    second run with the same arguments changes nothing, provided the
    selector still finds that element (a selector that asks for an
    unchecked box does not find it once it is checked). *)
Theorem setCheckbox_establishes_state (host : Host) (selector : string)
        (wanted : bool) (container : Container) (w : World) (el : Element) :
  plain_checkboxes host ->
  NoDup (map eid (elements (doc w))) ->
  querySelector host selector container (doc w) = inr (Some el) ->
  let w' := snd (setCheckboxBySelector host selector wanted container w) in
  (forall e, In e (elements (doc w')) -> eid e = eid el -> checked e = wanted)
  /\ (forall el',
         querySelector host selector container (doc w') = inr (Some el') ->
         eid el' = eid el ->
         setCheckboxBySelector host selector wanted container w' = (Normal tt, w')).
Proof.
  intros Hc Hn Hq. cbv zeta.
  pose proof (querySelector_In _ _ _ _ _ Hq) as Hin.
  assert (A : forall e,
             In e (elements
                     (doc (snd (setCheckboxBySelector host selector wanted container w)))) ->
             eid e = eid el -> checked e = wanted).
  { rewrite (setCheckboxBySelector_found _ _ _ _ _ _ Hq).
    destruct (Bool.eqb (checked el) wanted) eqn:E; cbn [snd doc]; intros e He Hid.
    - apply eqb_prop in E. now rewrite (same_identity (doc w) e el Hn He Hin Hid).
    - rewrite Hc in He. unfold toggle in He. rewrite elements_update in He.
      apply in_map_iff in He. destruct He as (e0 & <- & He0).
      assert (I0 : eid e0 = eid el).
      { rewrite <- Hid. unfold toggle_checked. now destruct (eid e0 =? eid el)%nat. }
      rewrite (same_identity (doc w) e0 el Hn He0 Hin I0).
      unfold toggle_checked. rewrite Nat.eqb_refl. cbn [checked].
      destruct (checked el), wanted; try reflexivity; discriminate. }
  split; [exact A|].
  intros el' Hq' Hid.
  rewrite (setCheckboxBySelector_found _ _ _ _ _ _ Hq').
  rewrite (A el' (querySelector_In _ _ _ _ _ Hq') Hid), eqb_reflx. reflexivity.
Qed.

Lemma setCheckbox_establishes_state_witness :
  plain_checkboxes toggling
  /\ NoDup (map eid (elements (doc sample_world)))
  /\ querySelector toggling (name_selector "agree") TheDocument (doc sample_world)
     = inr (Some agree_checkbox)
  /\ (forall e,
         In e (elements (doc (snd (setCheckboxBySelector toggling (name_selector "agree")
                                     true TheDocument sample_world)))) ->
         eid e = 11 -> checked e = true).
Proof.
  assert (N : NoDup (map eid (elements (doc sample_world)))).
  { cbn. repeat (constructor; [cbn; intuition discriminate|]). constructor. }
  split; [intros i d; reflexivity | split; [exact N | split; [reflexivity|]]].
  exact (proj1 (setCheckbox_establishes_state toggling (name_selector "agree") true
                  TheDocument sample_world agree_checkbox (fun _ _ => eq_refl) N
                  eq_refl)).
Defined.

(** The checkbox of the sample page after the run: found again and
    checked, so that a second run leaves the world alone. *)
Example setCheckbox_twice :
  let w' := snd (setCheckboxBySelector toggling (name_selector "agree") true
                   TheDocument sample_world) in
  querySelector toggling (name_selector "agree") TheDocument (doc w')
  = inr (Some (toggle_checked 11 agree_checkbox))
  /\ setCheckboxBySelector toggling (name_selector "agree") true TheDocument w'
     = (Normal tt, w').
Proof. cbv zeta. split; reflexivity. Qed.

(** X13.  [dateSetValue] calls the setter of the input prototype on
    whatever element it is handed.  On an element of the document that
    is not an input, a textarea for one, the element is focused and the
    call throws a TypeError: nothing is stored, no event is dispatched
    and the promise is rejected.  On an input whose native setter does
    not throw, the run is the focus, the native assignment, an [input]
    event of class InputEvent and a plain [change] event, in this
    order. *)
Theorem dateSetValue_by_element (host : Host) (i : nat) (value : string) (w : World)
        (el : Element) :
  nativeSetter host = true ->
  let focused := on_focus host i (doc w) in
  find (fun e => (eid e =? i)%nat) (elements focused) = Some el ->
  (tagName el <> "input" ->
   dateSetValue host (Some i) value w
   = (Abrupt (TypeError "Illegal invocation"),
      mkWorld focused (now w) (trace w ++ [Focus i; NativeSetValue i value])))
  /\ (forall stored,
         tagName el = "input" ->
         on_native_set host i value focused = inr stored ->
         dateSetValue host (Some i) value w
         = (Normal tt,
            mkWorld (on_event host i (bubbling PlainEvent "change")
                       (on_event host i (bubbling InputEvent "input") stored))
                    (now w)
                    (trace w ++ [Focus i; NativeSetValue i value;
                                 Dispatch i (bubbling InputEvent "input");
                                 Dispatch i (bubbling PlainEvent "change")]))).
Proof.
  intros Hn focused Hf.
  assert (O : is_other_element i focused = negb (String.eqb (tagName el) "input")).
  { unfold is_other_element. now rewrite Hf. }
  assert (R : dateSetValue host (Some i) value w
              = (native_set_value host i value ;;
                 dispatchEvent host i (bubbling InputEvent "input") ;;
                 dispatchEvent host i (bubbling PlainEvent "change"))
                  (mkWorld focused (now w) (trace w ++ [Focus i]))).
  { unfold dateSetValue. rewrite Hn. reflexivity. }
  rewrite R. split.
  - intros Ht. apply String.eqb_neq in Ht.
    unfold bind at 1, native_set_value. cbn [doc]. rewrite O, Ht. cbn [negb].
    unfold emit. cbn [doc now trace]. now rewrite <- app_assoc.
  - intros stored Ht Hs. apply String.eqb_eq in Ht.
    unfold bind at 1, native_set_value. cbn [doc]. rewrite O, Ht. cbn [negb].
    rewrite Hs. unfold bind, dispatchEvent. cbn [doc now trace].
    now rewrite <- !app_assoc.
Qed.

(** The sample page has an input and a listbox: the date setter fills
    the one and throws on the other. *)
Lemma dateSetValue_by_element_witness :
  nativeSetter inert = true
  /\ find (fun e => (eid e =? 4)%nat) (elements sample_page)
     = Some (plain 4 "div" [("role", "listbox")] EmptyString)
  /\ dateSetValue inert (Some 4) "2024-01-31" sample_world
     = (Abrupt (TypeError "Illegal invocation"),
        mkWorld sample_page 0 [Focus 4; NativeSetValue 4 "2024-01-31"])
  /\ fst (dateSetValue inert (Some 3) "2024-01-31" sample_world) = Normal tt
  /\ value_of 3 (doc (snd (dateSetValue inert (Some 3) "2024-01-31" sample_world)))
     = Some "2024-01-31".
Proof.
  split; [reflexivity | split; [reflexivity | split; [|split; reflexivity]]].
  apply (proj1 (dateSetValue_by_element inert 4 "2024-01-31" sample_world
                  (plain 4 "div" [("role", "listbox")] EmptyString) eq_refl eq_refl)).
  discriminate.
Defined.

(** *** The radio setter and the overlay dismisser *)

Lemma radio_selector_parses name val :
  plain_name name = true -> plain_name val = true ->
  Selector.parse (radio_selector name val)
  = Some [Selector.mkCompound (Some "input")
            [Selector.AttrEq "name" name; Selector.AttrEq "value" val]].
Proof.
  intros Hn Hv. unfold Selector.parse, radio_selector, quoted, dquote.
  rewrite !append_assoc. cbn [append]. rewrite ?append_assoc. cbn [append].
  simpl. rewrite scan_value by exact Hn.
  simpl. rewrite scan_value by exact Hv. reflexivity.
Qed.

Lemma querySelectorAll_radios host name val d :
  plain_name name = true -> plain_name val = true ->
  querySelectorAll host (radio_selector name val) TheDocument d = inr (radios name val d).
Proof.
  intros Hn Hv.
  rewrite (querySelectorAll_parsed host _ _ TheDocument d
             (radio_selector_parses name val Hn Hv)).
  unfold radios, elements.
  rewrite <- filter_map_fst. do 2 apply f_equal.
  apply filter_ext. intros [e anc].
  unfold Selector.matches, Selector.matches_compound, is_radio, attr_is.
  cbn [rev app fst snd Selector.c_tag Selector.c_attrs forallb Selector.test_attr
       Selector.matches_ancestors in_scope].
  change (toLowerCase "name") with "name". change (toLowerCase "value") with "value".
  change (toLowerCase "input") with "input". exact_values.
  rewrite (String.eqb_sym "input").
  destruct (tagName e =? "input")%string; [|reflexivity].
  destruct (getAttribute e "name") as [x|]; [|reflexivity].
  destruct (x =? name)%string; [|reflexivity].
  destruct (getAttribute e "value") as [y|]; [|reflexivity].
  destruct (y =? val)%string; reflexivity.
Qed.

(** X14.  For a name and a value without quote, backslash, line break
    or NUL, [setRadio] looks in the whole document for the first input whose
    name and value attributes are the two strings and clicks it once,
    whatever its state; when there is none it prints the warning and
    does nothing else. *)
Theorem setRadio_clicks_the_named_value (host : Host) (name val : string) (w : World) :
  plain_name name = true ->
  plain_name val = true ->
  setRadio host name val w
  = match radios name val (doc w) with
    | el :: _ =>
        (Normal tt,
         mkWorld (on_click host (eid el) (doc w)) (now w) (trace w ++ [Click (eid el)]))
    | [] =>
        (Normal tt, emit (ConsoleWarn [LStr "Radio not found:"; LStr name; LStr val]) w)
    end.
Proof.
  intros Hn Hv. unfold setRadio, bind, query, lift_query, querySelector.
  rewrite (querySelectorAll_radios host name val (doc w) Hn Hv).
  destruct (radios name val (doc w)); reflexivity.
Qed.

Lemma setRadio_clicks_the_named_value_witness :
  plain_name "remote" = true /\ plain_name "no" = true
  /\ setRadio inert "remote" "no" radio_world
     = (Normal tt, mkWorld radio_page 0 [Click 31]).
Proof.
  split; [reflexivity | split; [reflexivity|]].
  exact (setRadio_clicks_the_named_value inert "remote" "no" radio_world
           eq_refl eq_refl).
Defined.

Lemma querySelectorAll_div host d :
  querySelectorAll host "div" TheDocument d = inr (divs d).
Proof.
  rewrite (querySelectorAll_parsed host "div" [Selector.mkCompound (Some "div") []])
    by reflexivity.
  unfold divs, elements.
  rewrite <- filter_map_fst. do 2 apply f_equal.
  apply filter_ext. intros [e anc].
  unfold Selector.matches, Selector.matches_compound.
  cbn [rev app fst snd Selector.c_tag Selector.c_attrs forallb
       Selector.matches_ancestors in_scope].
  change (toLowerCase "div") with "div".
  rewrite (String.eqb_sym "div"). now rewrite !andb_true_r.
Qed.

(** X15.  [clickAway] never fails and looks for its backdrop when its
    timer of 500 ms fires, not when it is called: the body of the
    document as it is then, else the first [div] in document order, gets
    a mousedown, a mouseup and a click, in this order; without body and
    without [div] nothing happens. *)
Theorem clickAway_backdrop (host : Host) (w : World) :
  let w1 := snd (sleep host 500 w) in
  let backdrop := match document_body (doc w1) with
                  | Some b => Some b
                  | None => hd_error (divs (doc w1))
                  end in
  clickAway host w
  = (Normal tt,
     match backdrop with
     | Some b =>
         let i := eid b in
         mkWorld (on_event host i (bubbling MouseEvent "click")
                    (on_event host i (bubbling MouseEvent "mouseup")
                       (on_event host i (bubbling MouseEvent "mousedown") (doc w1))))
                 (now w1)
                 (trace w1 ++ [Dispatch i (bubbling MouseEvent "mousedown");
                               Dispatch i (bubbling MouseEvent "mouseup");
                               Dispatch i (bubbling MouseEvent "click")])
     | None => w1
     end).
Proof.
  cbv zeta. unfold clickAway, setTimeout, bind at 1, sleep. cbn [snd].
  set (w1 := mkWorld _ _ _).
  unfold bind at 1, body_or_div.
  destruct (document_body (doc w1)) as [b|].
  - unfold bind, dispatchEvent. cbn [doc now trace]. rewrite <- ?app_assoc. reflexivity.
  - unfold query, lift_query, querySelector. rewrite querySelectorAll_div.
    destruct (divs (doc w1)) as [|b l]; cbn [hd_error]; [reflexivity|].
    unfold bind, dispatchEvent. cbn [doc now trace]. rewrite <- ?app_assoc. reflexivity.
Qed.

(** Without a body the first [div] in document order is the backdrop. *)
Example clickAway_on_first_div :
  clickAway inert div_world
  = (Normal tt,
     mkWorld div_page 500
       [Sleep 500;
        Dispatch 40 (bubbling MouseEvent "mousedown");
        Dispatch 40 (bubbling MouseEvent "mouseup");
        Dispatch 40 (bubbling MouseEvent "click")]).
Proof. reflexivity. Qed.

(** *** The dropdown of the utils.js revision *)

(** X16.  Once its button is found, [selectDropdownByLabel] of utils.js
    always returns normally, also when the option selector is refused:
    the error of the timer callback reaches no caller.  It waits a fixed
    300 ms instead of waiting for options, takes the options from its
    container instead of the last listbox, and clicks the one the
    matcher picks for the label without aliases, or prints a warning. *)
Theorem selectDropdownByLabel_choice (host : Host)
        (buttonSelector labelToMatch optionSelector : string) (container : Container)
        (w : World) (button : Element) :
  querySelector host buttonSelector container (doc w) = inr (Some button) ->
  let clicked := mkWorld (on_click host (eid button) (doc w)) (now w)
                         (trace w ++ [Click (eid button)]) in
  let w1 := snd (sleep host 300 clicked) in
  UtilsJs.selectDropdownByLabel host buttonSelector labelToMatch optionSelector
                                container w
  = match querySelectorAll host optionSelector container (doc w1) with
    | inl e => (Normal tt, emit (Uncaught e) w1)
    | inr options =>
        match findMatchingOption options labelToMatch [] with
        | Some m =>
            (Normal tt,
             mkWorld (on_click host (eid m) (doc w1)) (now w1) (trace w1 ++ [Click (eid m)]))
        | None =>
            (Normal tt,
             emit (ConsoleWarn [LStr "Dropdown option not found:"; LStr labelToMatch]) w1)
        end
    end.
Proof.
  intros Hq. cbv zeta.
  unfold UtilsJs.selectDropdownByLabel, bind at 1, query, lift_query. rewrite Hq.
  unfold bind at 1, click at 1. unfold setTimeout, bind at 1, sleep. cbn [snd].
  set (w1 := mkWorld (on_elapse _ _ _ _) _ _).
  unfold bind at 1, queryAll, lift_query.
  destruct (querySelectorAll host optionSelector container (doc w1)) as [e | options];
    [reflexivity|].
  unfold findMatchingOption, text_is, normalize. cbn [alias_loop].
  destruct (find _ options) as [m|]; reflexivity.
Qed.

Lemma selectDropdownByLabel_choice_witness :
  querySelector opening_host open_selector TheDocument (doc closed_world)
  = inr (Some (plain 20 "button" [("id", "open")] EmptyString))
  /\ UtilsJs.selectDropdownByLabel opening_host open_selector " yes" option_selector
       TheDocument closed_world
     = (Normal tt, mkWorld sample_page 300 [Click 20; Sleep 300; Click 5])
  /\ UtilsJs.selectDropdownByLabel opening_host open_selector " yes" broken_selector
       TheDocument closed_world
     = (Normal tt,
        mkWorld sample_page 300
                [Click 20; Sleep 300; Uncaught (SyntaxError broken_selector)]).
Proof.
  split; [reflexivity | split].
  - exact (selectDropdownByLabel_choice opening_host open_selector " yes"
             option_selector TheDocument closed_world
             (plain 20 "button" [("id", "open")] EmptyString) eq_refl).
  - exact (selectDropdownByLabel_choice opening_host open_selector " yes"
             broken_selector TheDocument closed_world
             (plain 20 "button" [("id", "open")] EmptyString) eq_refl).
Defined.

(** *** The earlier type-select flow *)

Lemma early_attempt host trigger container c w :
  takes_values host trigger ->
  exists w1 t1,
    Part000.attempt host trigger container c w = (Normal tt, w1)
    /\ trace w1 = trace w ++ t1
    /\ filter touches_page t1 = early_attempt_effects trigger c
    /\ filter is_warning t1 = [no_item_warning c]
    /\ (punctual host -> now w1 = (now w + 600)%Z).
Proof.
  intros Hv. destruct (Hv c (doc w)) as (stored & d' & E).
  unfold Part000.attempt, bind, assign_value, console_log, dispatchEvent, sleep,
    Part000.check_selected, console_warn, emit.
  rewrite E. cbn [doc now trace].
  match goal with |- context [querySelectorAll ?h ?s ?k ?d] =>
    destruct (querySelectorAll h s k d) end.
  all: eexists; eexists; (split; [reflexivity|]); cbn [trace now];
    (split; [rewrite <- !app_assoc; cbn [app]; reflexivity|]);
    (split; [reflexivity|]); (split; [reflexivity|]);
    intros Hp; rewrite !Hp; lia.
Qed.

Lemma early_type_loop host trigger container cands :
  takes_values host trigger ->
  forall w, exists w' t,
    Part000.type_loop host trigger container cands w = (Normal tt, w')
    /\ trace w' = trace w ++ t
    /\ filter touches_page t = flat_map (early_attempt_effects trigger) cands
    /\ filter is_warning t = map no_item_warning cands
    /\ (punctual host -> now w' = (now w + 600 * Z.of_nat (length cands))%Z).
Proof.
  intros Hv. induction cands as [|c r IH]; intros w.
  - exists w, []. cbn. rewrite app_nil_r. repeat split; try reflexivity. intros _; lia.
  - cbn [Part000.type_loop]. unfold bind at 1.
    destruct (early_attempt host trigger container c w Hv)
      as (w1 & t1 & -> & Ht1 & Hf1 & Hw1 & Hn1).
    destruct (IH w1) as (w' & t & Hrun & Htr & Hf & Hw & Hnow).
    exists w', (t1 ++ t). split; [exact Hrun|].
    split; [rewrite Htr, Ht1; now rewrite <- app_assoc|].
    split; [rewrite filter_app, Hf1, Hf; reflexivity|].
    split; [rewrite filter_app, Hw1, Hw; reflexivity|].
    intros Hp. rewrite (Hnow Hp), (Hn1 Hp). cbn [length]. lia.
Qed.

(** X17.  In the revision whose type-select flow reads a name declared
    nowhere, once the trigger is found, a trigger that takes the values
    assigned to it, every candidate, the label and
    then each alias, is typed and committed, and each is followed by the
    warning that no selected item appeared: whatever the page shows,
    nothing is ever recognised as selected, the flag for several
    selections makes no difference, and the flow returns normally, 600 ms
    per candidate after its call when timers fire on time. *)
Theorem early_type_select_never_recognises (host : Host)
        (triggerSelector labelToMatch : string) (allowMutiple : bool)
        (container : Container) (aliases : list string) (optionSelector : string)
        (w : World) (trigger : Element) :
  querySelector host triggerSelector container (doc w) = inr (Some trigger) ->
  takes_values host (eid trigger) ->
  exists w' t,
    Part000.selectByTypingFromDropdown host triggerSelector labelToMatch allowMutiple
                                       container aliases optionSelector w
    = (Normal tt, w')
    /\ trace w' = trace w ++ Click (eid trigger) :: t
    /\ filter touches_page t
       = flat_map (early_attempt_effects (eid trigger)) (labelToMatch :: aliases)
    /\ filter is_warning t = map no_item_warning (labelToMatch :: aliases)
    /\ (punctual host ->
        now w' = (now w + 600 * Z.of_nat (S (length aliases)))%Z).
Proof.
  intros Hq Hv.
  unfold Part000.selectByTypingFromDropdown, bind at 1, query, lift_query. rewrite Hq.
  unfold bind at 1, click at 1.
  match goal with |- context [Part000.type_loop host ?t ?k ?l ?x] =>
    destruct (early_type_loop host t k l Hv x)
      as (w' & tr & Hrun & Htr & Hf & Hw & Hnow) end.
  exists w', tr. split; [exact Hrun|].
  split; [rewrite Htr; cbn [trace]; now rewrite <- app_assoc|].
  split; [exact Hf | split; [exact Hw|]].
  intros Hp. rewrite (Hnow Hp). reflexivity.
Qed.

Lemma early_type_select_never_recognises_witness :
  querySelector chip_host skills_selector TheDocument (doc sample_world)
  = inr (Some skills_input)
  /\ takes_values chip_host 12
  /\ exists w' t,
       Part000.selectByTypingFromDropdown chip_host skills_selector "Python" false
         TheDocument ["Go"] EmptyString sample_world = (Normal tt, w')
       /\ trace w' = trace sample_world ++ Click 12 :: t
       /\ filter touches_page t = flat_map (early_attempt_effects 12) ["Python"; "Go"]
       /\ filter is_warning t = map no_item_warning ["Python"; "Go"]
       /\ (punctual chip_host ->
           now w' = (now sample_world + 600 * Z.of_nat 2)%Z).
Proof.
  assert (T : takes_values chip_host 12) by (now apply text_fields_take_values).
  split; [reflexivity | split; [exact T|]].
  exact (early_type_select_never_recognises chip_host skills_selector "Python" false
           TheDocument ["Go"] EmptyString sample_world skills_input eq_refl T).
Defined.

(** *** Names and the template of the name-based entry points *)

(** For a plain name the template finds the inputs of that name below
    the container. *)
Lemma query_plain_name (host : Host) (name : string) (container : Container)
      (w : World) :
  plain_name name = true ->
  query host (name_selector name) container w
  = (Normal (hd_error (inputs_named_in container name (doc w))), w).
Proof.
  intros H. unfold query, lift_query, querySelector.
  rewrite (querySelectorAll_parsed host _ _ container (doc w)
             (name_selector_parses name H)).
  unfold inputs_named_in. do 4 f_equal.
  apply filter_ext. intros [e anc]. f_equal.
  unfold Selector.matches, Selector.matches_compound, is_input_named.
  cbn [rev app fst snd Selector.c_tag Selector.c_attrs forallb Selector.test_attr
       Selector.matches_ancestors].
  change (toLowerCase "name") with "name". change (toLowerCase "input") with "input".
  exact_values. rewrite String.eqb_sym.
  destruct (getAttribute e "name"); simpl; now rewrite ?andb_true_r.
Qed.

(** X18.  The name-based entry points put the name between the quotes of
    their selector as it is.  For a name without quote, backslash, line
    break or NUL, both act on the first input below the container whose
    name attribute is that string, letter for letter and case for case,
    and on no other element; when there is no such input they print
    their warning. *)
Theorem plain_name_selects_by_name (host : Host) (name value : string)
        (wanted : bool) (container : Container) (w : World) :
  plain_name name = true ->
  let found := hd_error (inputs_named_in container name (doc w)) in
  fillInputByName host name value container w
  = match found with
    | Some el =>
        (focus host (eid el) ;;
         assign_value host (eid el) value ;;
         dispatchEvent host (eid el) (bubbling PlainEvent "input") ;;
         dispatchEvent host (eid el) (bubbling PlainEvent "change")) w
    | None => console_warn [LStr "Input not found:"; LStr (name_selector name)] w
    end
  /\ setCheckboxByName host name wanted container w
     = match found with
       | Some el =>
           if Bool.eqb (checked el) wanted then (Normal tt, w)
           else (click host (eid el) ;;
                 console_log [LStr "Checkbox clicked programmatically."]) w
       | None => console_warn [LStr "Checkbox not found:"; LStr (name_selector name)] w
       end.
Proof.
  intros H found.
  unfold fillInputByName, fillInputBySelector, setCheckboxByName, setCheckboxBySelector.
  unfold bind at 1. rewrite (query_plain_name host name container w H). fold found.
  split.
  - destruct found; reflexivity.
  - unfold bind at 1. rewrite (query_plain_name host name container w H). fold found.
    destruct found as [el|]; [|reflexivity].
    destruct (Bool.eqb (checked el) wanted); reflexivity.
Qed.

(** The checkbox of the sample page is found by its name below the body,
    and not by the same name with a capital. *)
Lemma plain_name_selects_by_name_witness :
  plain_name "agree" = true
  /\ hd_error (inputs_named_in (Within 2) "agree" sample_page) = Some agree_checkbox
  /\ setCheckboxByName inert "agree" false (Within 2) sample_world
     = (Normal tt, sample_world)
  /\ setCheckboxByName inert "Agree" false (Within 2) sample_world
     = (Normal tt,
        emit (ConsoleWarn [LStr "Checkbox not found:"; LStr (name_selector "Agree")])
             sample_world).
Proof.
  split; [reflexivity | split; [reflexivity | split]].
  - exact (proj2 (plain_name_selects_by_name inert "agree" EmptyString false (Within 2)
                    sample_world eq_refl)).
  - exact (proj2 (plain_name_selects_by_name inert "Agree" EmptyString false (Within 2)
                    sample_world eq_refl)).
Defined.

(** Two names with a double quote.  The first makes a selector that is
    refused, so that [fillInputByName] throws at its caller; the second
    makes a selector for a hidden input named x. *)
Example quoted_names_at_work :
  fillInputByName inert broken_name "v" TheDocument sample_world
  = (Abrupt (SyntaxError (name_selector broken_name)), sample_world)
  /\ Selector.parse (name_selector smuggling_name)
     = Some [Selector.mkCompound (Some "input")
               [Selector.AttrEq "name" "x"; Selector.AttrEq "type" "hidden"]].
Proof. split; reflexivity. Qed.
